(** * Next-Step backend: authentication core

    A shallow embedding of the authentication and authorization code of the
    Next-Step backend:
    - [app/services/auth.py]        password verification, JWT issue/decode,
                                    [authenticate_user];
    - [app/services/google_auth.py] [verify_google_token],
                                    [get_or_create_google_user];
    - [app/dependencies.py]         [get_current_user];
    - [app/routers/auth.py]         [login], [register];
    - [app/config.py]               [Settings].

    Python exceptions are modelled by the result type [result] (a value or a
    raised exception); the relational store is the list of rows of the
    [users] table together with the next value of its id sequence. *)

From Stdlib Require Import String Ascii List ZArith Bool Lia.
Import ListNotations.
Open Scope string_scope.

(* ------------------------------------------------------------------ *)
(** ** Python values and exceptions *)

(** Exceptions of python-jose: all of them derive from [JWTError]. *)
Inductive jwt_error_kind :=
| JWTErrorBase
| JWSError
| ExpiredSignatureError
| JWTClaimsError.

Inductive exn :=
| JWTError (kind : jwt_error_kind) (msg : string)
| JWSSignError (msg : string)   (* [jose.exceptions.JWSError] of [jws.sign] *)
| ValueError (msg : string)
| TypeError (msg : string)
| KeyError (key : string)
| AttributeError (msg : string)
| GoogleAuthError (msg : string)
| MultipleResultsFound
| DataError (msg : string)      (* [sqlalchemy.exc.DataError] from PostgreSQL *)
| HTTPException (status_code : Z) (detail : string).

(** A computation that returns a value or raises an exception. *)
Inductive result (A : Type) : Type :=
| Ok (a : A)
| Raise (e : exn).
Arguments Ok {A} a.
Arguments Raise {A} e.

Definition bind {A B} (m : result A) (k : A -> result B) : result B :=
  match m with
  | Ok a => k a
  | Raise e => Raise e
  end.

Notation "x <- m ;; k" := (bind m (fun x => k))
  (at level 61, m at next level, right associativity).

(** JSON-like values held in Python dicts (claims, payloads).
    [JDateTime us] is a [datetime] object, in microseconds since the epoch. *)
Inductive jval :=
| JNull
| JBool (b : bool)
| JInt (z : Z)
| JStr (s : string)
| JDateTime (us : Z).

(** A Python dict with string keys, in insertion order. *)
Definition dict := list (string * jval).

(** [d.get(k)] *)
Fixpoint dict_get (d : dict) (k : string) : option jval :=
  match d with
  | [] => None
  | (k', v) :: d' => if String.eqb k k' then Some v else dict_get d' k
  end.

(** [d.update({k: v})]: replaces the value in place, or appends the key. *)
Fixpoint dict_set (d : dict) (k : string) (v : jval) : dict :=
  match d with
  | [] => [(k, v)]
  | (k', v') :: d' =>
      if String.eqb k k' then (k', v) :: d' else (k', v') :: dict_set d' k v
  end.

Definition jval_eqb (a b : jval) : bool :=
  match a, b with
  | JNull, JNull => true
  | JBool x, JBool y => Bool.eqb x y
  | JInt x, JInt y => Z.eqb x y
  | JStr x, JStr y => String.eqb x y
  | JDateTime x, JDateTime y => Z.eqb x y
  | _, _ => false
  end.

Fixpoint dict_eqb (a b : dict) : bool :=
  match a, b with
  | [], [] => true
  | (k, v) :: a', (k', v') :: b' =>
      String.eqb k k' && jval_eqb v v' && dict_eqb a' b'
  | _, _ => false
  end.

(* ------------------------------------------------------------------ *)
(** ** Helpers: [str(int)], [int(str)], [EmailStr] *)

Definition digit_char (d : nat) : ascii := ascii_of_nat (48 + d).

Fixpoint nat_digits (fuel n : nat) (acc : string) : string :=
  match fuel with
  | O => acc
  | S f =>
      let acc' := String (digit_char (Nat.modulo n 10)) acc in
      if Nat.ltb n 10 then acc' else nat_digits f (Nat.div n 10) acc'
  end.

(** [str(z)] for an integer. *)
Definition py_str_int (z : Z) : string :=
  if (z <? 0)%Z
  then "-" ++ nat_digits (S (Z.to_nat (- z))) (Z.to_nat (- z)) ""
  else nat_digits (S (Z.to_nat z)) (Z.to_nat z) "".

Definition is_space (c : ascii) : bool :=
  match nat_of_ascii c with
  | 32 | 9 | 10 | 11 | 12 | 13 => true
  | _ => false
  end.

Definition is_digit (c : ascii) : bool :=
  Nat.leb 48 (nat_of_ascii c) && Nat.leb (nat_of_ascii c) 57.

Fixpoint drop_spaces (l : list ascii) : list ascii :=
  match l with
  | c :: r => if is_space c then drop_spaces r else l
  | [] => []
  end.

(** Decimal digits with single underscores between digits. *)
Fixpoint parse_digits (l : list ascii) (acc : Z) (after_digit : bool) : option Z :=
  match l with
  | [] => if after_digit then Some acc else None
  | c :: r =>
      if is_digit c
      then parse_digits r (acc * 10 + Z.of_nat (nat_of_ascii c - 48))%Z true
      else if after_digit && Ascii.eqb c "_" then parse_digits r acc false
      else None
  end.

Definition parse_int_literal (s : string) : option Z :=
  let l := rev (drop_spaces (rev (drop_spaces (list_ascii_of_string s)))) in
  match l with
  | c :: r =>
      if Ascii.eqb c "-" then option_map Z.opp (parse_digits r 0 false)
      else if Ascii.eqb c "+" then parse_digits r 0 false
      else parse_digits l 0 false
  | [] => None
  end.

(** [int(v)] on a decoded claim value. *)
Definition py_int (v : jval) : result Z :=
  match v with
  | JInt z => Ok z
  | JBool b => Ok (if b then 1 else 0)%Z
  | JStr s =>
      match parse_int_literal s with
      | Some z => Ok z
      | None => Raise (ValueError
                  ("invalid literal for int() with base 10: '" ++ s ++ "'"))
      end
  | JNull => Raise (TypeError "int() argument must be a string, a bytes-like object or a real number, not 'NoneType'")
  | JDateTime _ => Raise (TypeError "int() argument must be a string, a bytes-like object or a real number, not 'datetime.datetime'")
  end.

Definition ascii_lower (c : ascii) : ascii :=
  let n := nat_of_ascii c in
  if Nat.leb 65 n && Nat.leb n 90 then ascii_of_nat (n + 32) else c.

(** Splits a reversed string at its last ["@"]. *)
Fixpoint split_last_at (r d : list ascii) : option (list ascii * list ascii) :=
  match r with
  | [] => None
  | c :: r' => if Ascii.eqb c "@" then Some (rev r', d) else split_last_at r' (c :: d)
  end.

(** Normalisation of a pydantic [EmailStr] (email-validator): the domain
    part, after the last ["@"], is lowercased; the local part is kept as
    written. *)
Definition emailstr_normalize (e : string) : string :=
  match split_last_at (rev (list_ascii_of_string e)) [] with
  | Some (local, domain) =>
      string_of_list_ascii (local ++ ["@"%char] ++ map ascii_lower domain)
  | None => e
  end.

(* ------------------------------------------------------------------ *)
(** ** Configuration ([app/config.py]) *)

Record Settings := mkSettings {
  app_name : string;
  database_url : string;
  secret_key : string;
  algorithm : string;
  access_token_expire_minutes : Z;
  google_client_ids : list string
}.

(** The values [Settings] takes from its declared defaults; [database_url]
    and [secret_key] have no default and come from the environment. *)
Definition default_settings (db_url key : string) : Settings :=
  {| app_name := "Next Step API";
     database_url := db_url;
     secret_key := key;
     algorithm := "HS256";
     access_token_expire_minutes := 1440;
     google_client_ids :=
       ["111-web.apps.googleusercontent.com";
        "222-ios.apps.googleusercontent.com";
        "333-android.apps.googleusercontent.com"] |}.

(** Attribute access [settings.<name>] on the pydantic model: a declared
    field gives its value, any other name raises [AttributeError]. *)
Inductive attr_val :=
| AStr (s : string)
| AInt (z : Z)
| AList (l : list string).

Definition settings_getattr (s : Settings) (name : string) : result attr_val :=
  if String.eqb name "app_name" then Ok (AStr (app_name s))
  else if String.eqb name "database_url" then Ok (AStr (database_url s))
  else if String.eqb name "secret_key" then Ok (AStr (secret_key s))
  else if String.eqb name "algorithm" then Ok (AStr (algorithm s))
  else if String.eqb name "access_token_expire_minutes"
       then Ok (AInt (access_token_expire_minutes s))
  else if String.eqb name "google_client_ids"
       then Ok (AList (google_client_ids s))
  else Raise (AttributeError
                ("'Settings' object has no attribute '" ++ name ++ "'")).

(* ------------------------------------------------------------------ *)
(** ** python-jose, as used by the token service

    A wire token is modelled by its parse: either a compact JWS
    [header.claims.signature], or a string that does not split into
    well-formed segments. HMAC signing is idealised symbolically: a
    signature made with a key is the term [Mac key alg header claims], and
    verifying recomputes that term with the verifier's key. *)

Inductive signature :=
| Mac (key alg : string) (header claims : dict)
| Forged (raw : string).

Inductive token :=
| Compact (header claims : dict) (sig : signature)
| Malformed (raw : string).

Definition signature_eqb (a b : signature) : bool :=
  match a, b with
  | Mac k al h c, Mac k' al' h' c' =>
      String.eqb k k' && String.eqb al al' && dict_eqb h h' && dict_eqb c c'
  | Forged r, Forged r' => String.eqb r r'
  | _, _ => false
  end.

Definition us_per_s : Z := 1000000.

(** [timegm(dt.utctimetuple())]: a datetime claim becomes whole seconds. *)
Definition encode_time_claim (k : string) (v : jval) : jval :=
  match v with
  | JDateTime us =>
      if String.eqb k "exp" || String.eqb k "iat" || String.eqb k "nbf"
      then JInt (us / us_per_s)%Z else v
  | _ => v
  end.

(** [jwt.encode(claims, key, algorithm)] *)
Definition jwt_encode (claims : dict) (key alg : string) : token :=
  let hdr := [("alg", JStr alg); ("typ", JStr "JWT")] in
  let claims' := map (fun kv => (fst kv, encode_time_claim (fst kv) (snd kv))) claims in
  Compact hdr claims' (Mac key alg hdr claims').

(** [int(claims[k])] in the claim checks of python-jose: the [ValueError]
    of a string that is not an integer literal becomes a [JWTClaimsError]
    with the check's message; the [TypeError] of [int(None)] is not caught
    and escapes [jwt.decode]. *)
Definition jose_int (v : jval) (msg : string) : result Z :=
  match py_int v with
  | Raise (ValueError _) => Raise (JWTError JWTClaimsError msg)
  | r => r
  end.

(** [_validate_iat]: the claim, when present, must convert with [int()]. *)
Definition validate_iat (claims : dict) : result unit :=
  match dict_get claims "iat" with
  | None => Ok tt
  | Some v => _ <- jose_int v "Issued At claim (iat) must be an integer." ;; Ok tt
  end.

(** [_validate_nbf] with leeway 0; the current time is taken in whole
    seconds ([timegm(datetime.utcnow().utctimetuple())]). *)
Definition validate_nbf (claims : dict) (now_us : Z) : result unit :=
  match dict_get claims "nbf" with
  | None => Ok tt
  | Some v =>
      nbf <- jose_int v "Not Before claim (nbf) must be an integer." ;;
      if (now_us / us_per_s <? nbf)%Z
      then Raise (JWTError JWTClaimsError "The token is not yet valid (nbf)")
      else Ok tt
  end.

(** [_validate_exp] with leeway 0. *)
Definition validate_exp (claims : dict) (now_us : Z) : result unit :=
  match dict_get claims "exp" with
  | None => Ok tt
  | Some v =>
      e <- jose_int v "Expiration Time claim (exp) must be an integer." ;;
      if (e <? now_us / us_per_s)%Z
      then Raise (JWTError ExpiredSignatureError "Signature has expired.")
      else Ok tt
  end.

(** [_validate_aud] with [audience=None]: a present [aud] claim is refused,
    a string as not naming the (absent) audience, any other value as
    malformed. *)
Definition validate_aud (claims : dict) : result unit :=
  match dict_get claims "aud" with
  | None => Ok tt
  | Some (JStr _) => Raise (JWTError JWTClaimsError "Invalid audience")
  | Some _ => Raise (JWTError JWTClaimsError "Invalid claim format in token")
  end.

(** [_validate_sub] with [subject=None]. *)
Definition validate_sub (claims : dict) : result unit :=
  match dict_get claims "sub" with
  | None => Ok tt
  | Some (JStr _) => Ok tt
  | Some _ => Raise (JWTError JWTClaimsError "Subject must be a string.")
  end.

(** [_validate_jti] *)
Definition validate_jti (claims : dict) : result unit :=
  match dict_get claims "jti" with
  | None => Ok tt
  | Some (JStr _) => Ok tt
  | Some _ => Raise (JWTError JWTClaimsError "JWT ID must be a string.")
  end.

(** [_validate_at_hash] with [access_token=None]: a present [at_hash]
    claim is refused. *)
Definition validate_at_hash (claims : dict) : result unit :=
  match dict_get claims "at_hash" with
  | None => Ok tt
  | Some _ =>
      Raise (JWTError JWTClaimsError
               "No access_token provided to compare against at_hash claim.")
  end.

(** [_validate_claims] with the default options of [jwt.decode] (no claim
    required, no audience, issuer, subject or access token given), in the
    library's order; the issuer check does nothing without an issuer. *)
Definition validate_claims (claims : dict) (now_us : Z) : result unit :=
  _ <- validate_iat claims ;;
  _ <- validate_nbf claims now_us ;;
  _ <- validate_exp claims now_us ;;
  _ <- validate_aud claims ;;
  _ <- validate_sub claims ;;
  _ <- validate_jti claims ;;
  validate_at_hash claims.

(** [jwt.decode(token, key, algorithms=algorithms)] at time [now_us].
    A [JWSError] of [jws.verify] is re-raised as a [JWTError]. The
    verifying key is [key] itself: python-jose's [_get_keys] first tries
    [json.loads(key)], which raises, and so keeps the key as it is, for
    every secret that [json_loads_fails_at_start] accepts; the key a secret
    parsable as JSON would be turned into is not modelled. *)
Definition jwt_decode (tok : token) (key : string) (algorithms : list string)
    (now_us : Z) : result dict :=
  match tok with
  | Malformed _ => Raise (JWTError JWSError "Not enough segments")
  | Compact hdr claims sig =>
      match dict_get hdr "alg" with
      | Some (JStr alg) =>
          if existsb (String.eqb alg) algorithms then
            if signature_eqb sig (Mac key alg hdr claims) then
              _ <- validate_claims claims now_us ;;
              Ok claims
            else Raise (JWTError JWSError "Signature verification failed.")
          else Raise (JWTError JWSError "The specified alg value is not allowed")
      | _ => Raise (JWTError JWSError "No algorithm was specified in the JWS header.")
      end
  end.

(** JSON whitespace, skipped by [json.loads] before the value. *)
Definition json_ws (c : ascii) : bool :=
  match nat_of_ascii c with
  | 32 | 9 | 10 | 13 => true
  | _ => false
  end.

(** The characters a JSON value can start with: a quote, a brace, a
    bracket, a minus sign, a digit, or the first letter of [null], [true],
    [false], [NaN] or [Infinity]. *)
Definition json_value_start (c : ascii) : bool :=
  Nat.eqb (nat_of_ascii c) 34
  || existsb (Ascii.eqb c) ["{"; "["; "-"; "n"; "t"; "f"; "N"; "I"]%char
  || is_digit c.

(** A sufficient test for [json.loads(s)] to raise: the string is empty or
    its first character is neither JSON whitespace nor the start of a JSON
    value. *)
Definition json_loads_fails_at_start (s : string) : bool :=
  match s with
  | EmptyString => true
  | String c _ => negb (json_ws c || json_value_start c)
  end.

(** [s1 in s2] for strings. *)
Definition str_contains (s2 s1 : string) : bool :=
  match String.index 0 s1 s2 with
  | Some _ => true
  | None => false
  end.

Definition hmac_algorithms : list string := ["HS256"; "HS384"; "HS512"].

(** The JWS signature algorithms of python-jose. *)
Definition jws_algorithms : list string :=
  hmac_algorithms ++ ["RS256"; "RS384"; "RS512"; "ES256"; "ES384"; "ES512"].

(** [HMACKey] refuses a secret holding one of these. *)
Definition hmac_invalid_strings : list string :=
  ["-----BEGIN PUBLIC KEY-----"; "-----BEGIN RSA PUBLIC KEY-----";
   "-----BEGIN CERTIFICATE-----"; "ssh-rsa"].

Definition is_datetime (v : jval) : bool :=
  match v with
  | JDateTime _ => true
  | _ => false
  end.

(** The exception [jwt.encode(claims, key, algorithm)] raises, if any, in
    the order of [jws.sign]: an algorithm it does not know, then
    [json.dumps] of the claims (a [datetime] left under a key other than
    [exp], [iat], [nbf] is not serialisable), then the construction of the
    signing key. A string secret is a key for the HMAC algorithms only: the
    model takes a secret used with an RSA or EC algorithm not to be such a
    key in PEM or JWK form, so that [jwk.construct] fails. *)
Definition jwt_encode_error (claims : dict) (key alg : string) : option exn :=
  let claims' := map (fun kv => (fst kv, encode_time_claim (fst kv) (snd kv))) claims in
  if negb (existsb (String.eqb alg) jws_algorithms)
  then Some (JWSSignError ("Algorithm " ++ alg ++ " not supported."))
  else if existsb (fun kv => is_datetime (snd kv)) claims'
  then Some (TypeError "Object of type datetime is not JSON serializable")
  else if negb (existsb (String.eqb alg) hmac_algorithms)
  then Some (JWSSignError "Unable to construct the signing key")
  else if existsb (str_contains key) hmac_invalid_strings
  then Some (JWSSignError "The specified key is an asymmetric key or x509 certificate and should not be used as an HMAC secret.")
  else None.

(** [jwt.encode], raising where the library raises. *)
Definition jwt_encode_checked (claims : dict) (key alg : string) : result token :=
  match jwt_encode_error claims key alg with
  | Some e => Raise e
  | None => Ok (jwt_encode claims key alg)
  end.

(* ------------------------------------------------------------------ *)
(** ** Token service ([app/services/auth.py]) *)

(** Truthiness of an optional [timedelta] (in microseconds):
    [None] and [timedelta(0)] are false. *)
Definition timedelta_truthy (d : option Z) : bool :=
  match d with
  | Some us => negb (us =? 0)%Z
  | None => false
  end.

(** The claims [create_access_token(data, expires_delta)] encodes at time
    [now_us]: [data.copy()] updated with the expiry. *)
Definition access_token_claims (settings : Settings) (data : dict)
    (expires_delta : option Z) (now_us : Z) : dict :=
  let expire :=
    match expires_delta with
    | Some d => if timedelta_truthy expires_delta then (now_us + d)%Z
                else (now_us + access_token_expire_minutes settings * 60 * us_per_s)%Z
    | None => (now_us + access_token_expire_minutes settings * 60 * us_per_s)%Z
    end in
  dict_set data "exp" (JDateTime expire).

(** [create_access_token(data, expires_delta)] called at time [now_us]:
    the token [jwt.encode] returns. *)
Definition create_access_token (settings : Settings) (data : dict)
    (expires_delta : option Z) (now_us : Z) : token :=
  jwt_encode (access_token_claims settings data expires_delta now_us)
    (secret_key settings) (algorithm settings).

(** [create_access_token(data, expires_delta)] with the exceptions of
    [jwt.encode]: the token of [create_access_token] when encoding succeeds. *)
Definition issue_access_token (settings : Settings) (data : dict)
    (expires_delta : option Z) (now_us : Z) : result token :=
  jwt_encode_checked (access_token_claims settings data expires_delta now_us)
    (secret_key settings) (algorithm settings).

(** [decode_token(token)] called at time [now_us]: a [JWTError] (or any of
    its subclasses) becomes [None]; anything else would propagate. *)
Definition decode_token (settings : Settings) (tok : token) (now_us : Z)
    : result (option dict) :=
  match jwt_decode tok (secret_key settings) [algorithm settings] now_us with
  | Ok payload => Ok (Some payload)
  | Raise (JWTError _ _) => Ok None
  | Raise e => Raise e
  end.

(* ------------------------------------------------------------------ *)
(** ** The [users] table ([app/models/user.py]) *)

Inductive UserRole := ADMIN | TEACHER | STUDENT.

Record User := mkUser {
  id : Z;
  email : string;
  name : string;
  hashed_password : option string;
  role : UserRole;
  avatar : option string;
  department : option string;
  google_id : option string
}.

(** Rows of the table and the next value of the id sequence. *)
Record DB := mkDB {
  users : list User;
  next_id : Z
}.

(** [result.scalar_one_or_none()] *)
Definition scalar_one_or_none (rows : list User) : result (option User) :=
  match rows with
  | [] => Ok None
  | [u] => Ok (Some u)
  | _ => Raise MultipleResultsFound
  end.

(** [select(User).where(User.email == e)]: SQL equality on [VARCHAR],
    an exact (case-sensitive) comparison. *)
Definition find_by_email (db : DB) (e : string) : result (option User) :=
  scalar_one_or_none (filter (fun u => String.eqb (email u) e) (users db)).

(** [select(User).where(User.google_id == g)]: a [NULL] column never
    compares equal. *)
Definition opt_str_eqb (o : option string) (s : string) : bool :=
  match o with
  | Some x => String.eqb x s
  | None => false
  end.

Definition find_by_google_id (db : DB) (g : string) : result (option User) :=
  scalar_one_or_none (filter (fun u => opt_str_eqb (google_id u) g) (users db)).

Definition find_by_id (db : DB) (i : Z) : result (option User) :=
  scalar_one_or_none (filter (fun u => Z.eqb (id u) i) (users db)).

(** Commit of a modified row (written back by primary key). *)
Definition db_update (db : DB) (u' : User) : DB :=
  {| users := map (fun v => if Z.eqb (id v) (id u') then u' else v) (users db);
     next_id := next_id db |}.

(** [db.add(user); commit; refresh]: the row gets the next id. *)
Definition db_insert (db : DB) (mk : Z -> User) : User * DB :=
  let u := mk (next_id db) in
  (u, {| users := users db ++ [u]; next_id := (next_id db + 1)%Z |}).

(** Python truthiness of an optional string. *)
Definition str_truthy (o : option string) : bool :=
  match o with
  | Some (String _ _) => true
  | _ => false
  end.

(** Table constraints: primary key, [UNIQUE(email)], [UNIQUE(google_id)],
    and the id sequence ahead of every id. *)
Definition gids (l : list User) : list string :=
  flat_map (fun u => match google_id u with Some g => [g] | None => [] end) l.

Record db_wf (db : DB) : Prop := {
  wf_ids : NoDup (map id (users db));
  wf_emails : NoDup (map email (users db));
  wf_gids : NoDup (gids (users db));
  wf_next : Forall (fun u => (id u < next_id db)%Z) (users db)
}.

(* ------------------------------------------------------------------ *)
(** ** Passwords and local login ([app/services/auth.py],
       [app/routers/auth.py]) *)

Section Passwords.

(** The argon2 handler of passlib on a hash it has identified: [Ok b] for a
    match or mismatch, or the handler's own exception. *)
Variable argon2_verify : string -> string -> result bool.

Definition argon2_identify (h : string) : bool :=
  String.prefix "$argon2i$" h || String.prefix "$argon2d$" h
  || String.prefix "$argon2id$" h.

(** [pwd_context.verify(plain, hashed)] with [schemes=["argon2"]]: a hash no
    configured scheme identifies raises [ValueError]. *)
Definition verify_password (plain_password hashed_password : string) : result bool :=
  if argon2_identify hashed_password
  then argon2_verify plain_password hashed_password
  else Raise (ValueError "hash could not be identified").

(** [authenticate_user(db, email, password)] *)
Definition authenticate_user (db : DB) (email_ password : string)
    : result (option User) :=
  user <- find_by_email db email_ ;;
  match user with
  | None => Ok None
  | Some u =>
      if negb (str_truthy (hashed_password u)) then Ok None
      else
        match hashed_password u with
        | None => Ok None
        | Some h =>
            ok <- verify_password password h ;;
            if ok then Ok (Some u) else Ok None
        end
  end.

(** [POST /api/v1/auth/login] at time [now_us], with the request's
    (already normalised) email: the token and the user on success. *)
Definition login (settings : Settings) (db : DB) (email_ password : string)
    (now_us : Z) : result (token * User) :=
  user <- authenticate_user db email_ password ;;
  match user with
  | None => Raise (HTTPException 401 "Invalid email or password")
  | Some u =>
      Ok (create_access_token settings [("sub", JStr (py_str_int (id u)))] None now_us, u)
  end.

End Passwords.

(* ------------------------------------------------------------------ *)
(** ** Current user ([app/dependencies.py]) *)

(** [get_current_user] for the bearer token [tok] at time [now_us]. An
    [HTTPException] is answered by FastAPI with its status; any other
    exception is unhandled (HTTP 500). *)
Definition get_current_user (settings : Settings) (db : DB) (tok : token)
    (now_us : Z) : result User :=
  payload <- decode_token settings tok now_us ;;
  match payload with
  | None => Raise (HTTPException 401 "Invalid or expired token")
  | Some payload =>
      match dict_get payload "sub" with
      | None | Some JNull => Raise (HTTPException 401 "Invalid token payload")
      | Some user_id =>
          uid <- py_int user_id ;;
          user <- find_by_id db uid ;;
          match user with
          | None => Raise (HTTPException 401 "User not found")
          | Some u => Ok u
          end
      end
  end.

(* ------------------------------------------------------------------ *)
(** ** Google sign-in ([app/services/google_auth.py]) *)

(** The dict returned by [verify_google_token]. *)
Record GoogleData := mkGoogleData {
  gd_google_id : string;
  gd_email : string;
  gd_name : string;
  gd_avatar : option string
}.

(** [d[k]] *)
Definition dict_getitem (d : dict) (k : string) : result jval :=
  match dict_get d k with
  | Some v => Ok v
  | None => Raise (KeyError k)
  end.

Definition as_str (v : jval) : result string :=
  match v with
  | JStr s => Ok s
  | _ => Raise (TypeError "expected str")
  end.

Definition google_issuers : list string :=
  ["accounts.google.com"; "https://accounts.google.com"].

(** [except ValueError as e: raise GoogleAuthError(...)] *)
Definition catch_value_error {A} (m : result A) : result A :=
  match m with
  | Raise (ValueError msg) => Raise (GoogleAuthError ("Invalid token: " ++ msg))
  | r => r
  end.

Section Google.

(** [id_token.verify_oauth2_token(token, request, audience)] of google-auth:
    the decoded claims, or [ValueError] when the token does not verify for
    the given audience. *)
Variable verify_oauth2_token : string -> attr_val -> result dict.

(** Extraction of the user information from verified claims. Python copies
    the values unchecked; this model reads [sub], [email] and [name] as
    strings (a Google ID token holds strings there) and drops a [picture]
    that is not one. The step is never reached in the source:
    [verify_google_token] raises [AttributeError] first. *)
Definition google_data_of_idinfo (idinfo : dict) : result GoogleData :=
  iss <- dict_getitem idinfo "iss" ;;
  if existsb (fun i => jval_eqb iss (JStr i)) google_issuers then
    sub <- dict_getitem idinfo "sub" ;;
    sub <- as_str sub ;;
    em <- dict_getitem idinfo "email" ;;
    em <- as_str em ;;
    nm <- as_str (match dict_get idinfo "name" with Some v => v | None => JStr "" end) ;;
    Ok {| gd_google_id := sub; gd_email := em; gd_name := nm;
          gd_avatar := match dict_get idinfo "picture" with
                       | Some (JStr p) => Some p
                       | _ => None
                       end |}
  else Raise (GoogleAuthError "Invalid token issuer").

(** [verify_google_token(token)]: the audience is read as
    [settings.google_client_id]. *)
Definition verify_google_token (settings : Settings) (tok : string)
    : result GoogleData :=
  catch_value_error (
    aud <- settings_getattr settings "google_client_id" ;;
    idinfo <- verify_oauth2_token tok aud ;;
    google_data_of_idinfo idinfo).

(** The verification the spec describes: each configured audience in
    order, the first that verifies wins, otherwise the last failure. *)
Fixpoint try_audiences (tok : string) (auds : list string) (last : exn)
    : result dict :=
  match auds with
  | [] => Raise last
  | a :: rest =>
      match verify_oauth2_token tok (AStr a) with
      | Ok idinfo => Ok idinfo
      | Raise e => try_audiences tok rest e
      end
  end.

Definition verify_identity_spec (settings : Settings) (tok : string)
    : result GoogleData :=
  catch_value_error (
    idinfo <- try_audiences tok (google_client_ids settings)
                (ValueError "no audience configured") ;;
    google_data_of_idinfo idinfo).

End Google.

(** [get_or_create_google_user(db, google_data)]: the user and the store
    after the call. *)
Definition get_or_create_google_user (db : DB) (gd : GoogleData)
    : result (User * DB) :=
  (* Scenario 1: by Google id *)
  user <- find_by_google_id db (gd_google_id gd) ;;
  match user with
  | Some u => Ok (u, db)
  | None =>
      (* Scenario 2: by email, link the Google account *)
      user <- find_by_email db (gd_email gd) ;;
      match user with
      | Some u =>
          let av := if negb (str_truthy (avatar u)) && str_truthy (gd_avatar gd)
                    then gd_avatar gd else avatar u in
          let u' := {| id := id u; email := email u; name := name u;
                       hashed_password := hashed_password u; role := role u;
                       avatar := av; department := department u;
                       google_id := Some (gd_google_id gd) |} in
          Ok (u', db_update db u')
      | None =>
          (* Scenario 3: new user *)
          Ok (db_insert db (fun i =>
                {| id := i; email := gd_email gd; name := gd_name gd;
                   hashed_password := None; role := STUDENT;
                   avatar := gd_avatar gd; department := None;
                   google_id := Some (gd_google_id gd) |}))
      end
  end.

(* ------------------------------------------------------------------ *)
(** ** Registration ([app/routers/auth.py], [app/schemas/user.py]) *)

Record UserCreate := mkUserCreate {
  uc_name : string;
  uc_email : string;
  uc_department : option string;
  uc_password : string;
  uc_role : UserRole
}.

(** The request body as [UserCreate] holds it once validated: [email]
    normalised as an [EmailStr], [department] defaulting to [None], [role]
    to [STUDENT]. Whether the email is accepted at all is decided in
    [register_request]. *)
Definition parse_user_create (name_ email_ : string) (department_ : option string)
    (password : string) (role_ : option UserRole) : UserCreate :=
  {| uc_name := name_; uc_email := emailstr_normalize email_;
     uc_department := department_; uc_password := password;
     uc_role := match role_ with Some r => r | None => STUDENT end |}.

Section Register.

(** [hash_password], i.e. [pwd_context.hash] (salted). *)
Variable hash_password : string -> string.

(** [VARCHAR(n)] accepts a value of at most [n] characters; PostgreSQL
    refuses a longer one at the commit. *)
Definition varchar_ok (n : nat) (s : string) : bool := Nat.leb (String.length s) n.

Definition opt_varchar_ok (n : nat) (o : option string) : bool :=
  match o with
  | Some s => varchar_ok n s
  | None => true
  end.

(** [POST /api/v1/auth/register]: no authentication dependency, the body
    and the store only. The new row is committed with its [email], [name],
    [hashed_password] and [department] in [String(255)] columns; a value
    longer than that makes the commit raise [DataError] (HTTP 500) and
    leaves the store as it was. *)
Definition register (db : DB) (user_data : UserCreate) : result (User * DB) :=
  existing <- find_by_email db (uc_email user_data) ;;
  match existing with
  | Some _ => Raise (HTTPException 400 "Email already registered")
  | None =>
      let hashed := hash_password (uc_password user_data) in
      if varchar_ok 255 (uc_email user_data) && varchar_ok 255 (uc_name user_data)
         && varchar_ok 255 hashed && opt_varchar_ok 255 (uc_department user_data)
      then
        Ok (db_insert db (fun i =>
              {| id := i; email := uc_email user_data; name := uc_name user_data;
                 hashed_password := Some hashed;
                 role := uc_role user_data; avatar := None;
                 department := uc_department user_data; google_id := None |}))
      else Raise (DataError "value too long for type character varying(255)")
  end.

(** The acceptance test of [EmailStr] (the library email-validator, called
    without deliverability check), left abstract. *)
Variable email_valid : string -> bool.


End Register.

(* ------------------------------------------------------------------ *)
(** ** Role checks ([app/dependencies.py]) *)

Definition role_eqb (a b : UserRole) : bool :=
  match a, b with
  | ADMIN, ADMIN | TEACHER, TEACHER | STUDENT, STUDENT => true
  | _, _ => false
  end.

(** [UserRole.value] *)
Definition role_value (r : UserRole) : string :=
  match r with
  | ADMIN => "ADMIN"
  | TEACHER => "TEACHER"
  | STUDENT => "STUDENT"
  end.

(** [', '.join(l)] *)
Fixpoint join_comma (l : list string) : string :=
  match l with
  | [] => ""
  | [s] => s
  | s :: r => s ++ ", " ++ join_comma r
  end.

(** [require_admin(current_user)] *)
Definition require_admin (current_user : User) : result User :=
  match role current_user with
  | ADMIN => Ok current_user
  | _ => Raise (HTTPException 403 "Admin access required")
  end.

(** [require_roles] with the allowed roles [allowed_roles], applied to the current user. *)
Definition require_roles (allowed_roles : list UserRole) (current_user : User)
    : result User :=
  if existsb (role_eqb (role current_user)) allowed_roles then Ok current_user
  else Raise (HTTPException 403
                ("Required role: " ++ join_comma (map role_value allowed_roles))).

(** [Depends(require_admin)] on a request with bearer token [tok]:
    [get_current_user] runs first. *)
Definition admin_dependency (settings : Settings) (db : DB) (tok : token)
    (now_us : Z) : result User :=
  u <- get_current_user settings db tok now_us ;;
  require_admin u.

(* ------------------------------------------------------------------ *)
(** ** Responses ([app/schemas/user.py]) *)

Record UserResponse := mkUserResponse {
  ur_id : string;
  ur_name : string;
  ur_email : string;
  ur_role : UserRole;
  ur_avatar : option string;
  ur_department : option string
}.

(** [UserResponse.from_user(user)] *)
Definition from_user (u : User) : UserResponse :=
  {| ur_id := py_str_int (id u); ur_name := name u; ur_email := email u;
     ur_role := role u; ur_avatar := avatar u; ur_department := department u |}.

(** [UserUpdate]: both fields optional. *)
Record UserUpdate := mkUserUpdate {
  uu_name : option string;
  uu_department : option string
}.

(* ------------------------------------------------------------------ *)
(** ** Routes using the current user ([app/routers/auth.py],
       [app/routers/users.py]) *)


(** [POST /api/v1/auth/google] at time [now_us]: only [GoogleAuthError] is
    turned into a 401. *)
Definition google_auth (verify_oauth2_token : string -> attr_val -> result dict)
    (settings : Settings) (db : DB) (id_token : string) (now_us : Z)
    : result (token * UserResponse * DB) :=
  google_data <-
    match verify_google_token verify_oauth2_token settings id_token with
    | Raise (GoogleAuthError msg) => Raise (HTTPException 401 msg)
    | r => r
    end ;;
  r <- get_or_create_google_user db google_data ;;
  let '(u, db') := r in
  Ok (create_access_token settings [("sub", JStr (py_str_int (id u)))] None now_us,
      from_user u, db').

(** [PUT /api/v1/users/profile] for the current user. *)
Definition update_profile (db : DB) (updates : UserUpdate) (current_user : User)
    : result (UserResponse * DB) :=
  let u' := {| id := id current_user; email := email current_user;
               name := match uu_name updates with
                       | Some n => n
                       | None => name current_user
                       end;
               hashed_password := hashed_password current_user;
               role := role current_user; avatar := avatar current_user;
               department := match uu_department updates with
                             | Some d => Some d
                             | None => department current_user
                             end;
               google_id := google_id current_user |} in
  Ok (from_user u', db_update db u').

(** [GET /api/v1/users] for the current user. The [require_admin]
    dependency runs before the query parameters are validated
    ([skip >= 0], [1 <= limit <= 100], else 422). The query has no
    [ORDER BY]; rows are taken in table order. *)
Definition list_users (db : DB) (department_ : option string) (skip limit : Z)
    (current_user : User) : result (list UserResponse) :=
  _ <- require_admin current_user ;;
  if (skip <? 0)%Z || (limit <? 1)%Z || (100 <? limit)%Z
  then Raise (HTTPException 422 "Unprocessable Entity")
  else
    let rows :=
      match department_ with
      | Some d => if str_truthy department_
                  then filter (fun u => opt_str_eqb (department u) d) (users db)
                  else users db
      | None => users db
      end in
    Ok (map from_user (firstn (Z.to_nat limit) (skipn (Z.to_nat skip) rows))).

(** [GET /api/v1/users/{user_id}] *)
Definition get_user (db : DB) (user_id : Z) : result UserResponse :=
  user <- find_by_id db user_id ;;
  match user with
  | None => Raise (HTTPException 404 "User not found")
  | Some u => Ok (from_user u)
  end.

(* ------------------------------------------------------------------ *)
(** ** Polls ([app/models/poll.py], [app/routers/polls.py],
       [app/services/activity.py]) *)

(** [result.scalar_one_or_none()] on the rows of any table. *)
Definition scalar_one_or_none_of {A} (rows : list A) : result (option A) :=
  match rows with
  | [] => Ok None
  | [x] => Ok (Some x)
  | _ => Raise MultipleResultsFound
  end.

(** A [polls] row. [poll_options] is [options["options"]] in the shape
    [create_poll] stores it: the [(id, text)] of each option, in request
    order. The description and the creation time are not modelled. *)
Record Poll := mkPoll {
  poll_id : Z;
  poll_title : string;
  poll_options : list (Z * string);
  is_active : bool;
  expires_at : option Z;
  created_by : Z
}.

(** A [poll_votes] row. *)
Record PollVote := mkPollVote {
  vote_id : Z;
  vote_poll_id : Z;
  vote_user_id : Z;
  vote_option_id : Z
}.

(** An [activities] row (its id and timestamp are not modelled). *)
Record Activity := mkActivity {
  act_title : string;
  act_author : string;
  act_action_type : string;
  act_entity_type : option string;
  act_entity_id : option Z
}.

Record PollDB := mkPollDB {
  polls : list Poll;
  poll_votes : list PollVote;
  activities : list Activity;
  next_poll_id : Z;
  next_vote_id : Z
}.

(** [log_activity(db, title, author, action_type, entity_type, entity_id)] *)
Definition log_activity (pdb : PollDB) (title author action_type : string)
    (entity_type : option string) (entity_id : option Z) : PollDB :=
  {| polls := polls pdb; poll_votes := poll_votes pdb;
     activities := activities pdb
                   ++ [mkActivity title author action_type entity_type entity_id];
     next_poll_id := next_poll_id pdb; next_vote_id := next_vote_id pdb |}.

(** [select(Poll).where(Poll.id == poll_id)] *)
Definition find_poll (pdb : PollDB) (pid : Z) : result (option Poll) :=
  scalar_one_or_none_of (filter (fun p => Z.eqb (poll_id p) pid) (polls pdb)).

Record PollCreate := mkPollCreate {
  pc_title : string;
  pc_options : list (Z * string);
  pc_expires_at : option Z
}.

(** [POST /api/v1/polls] for the current user ([require_admin]): the new
    poll and the store after the commit. *)
Definition create_poll (pdb : PollDB) (data : PollCreate) (current_user : User)
    : result (Poll * PollDB) :=
  _ <- require_admin current_user ;;
  let p := {| poll_id := next_poll_id pdb; poll_title := pc_title data;
              poll_options := pc_options data; is_active := true;
              expires_at := pc_expires_at data; created_by := id current_user |} in
  let pdb1 := {| polls := polls pdb ++ [p]; poll_votes := poll_votes pdb;
                 activities := activities pdb;
                 next_poll_id := (next_poll_id pdb + 1)%Z;
                 next_vote_id := next_vote_id pdb |} in
  Ok (p, log_activity pdb1 ("Poll Created: " ++ pc_title data) (name current_user)
           "create" (Some "poll") (Some (poll_id p))).

Section Voting.

(** [poll.expires_at < datetime.now(timezone.utc)] for a stored expiry, at
    the instant of the request: a boolean, or the exception the comparison
    raises. *)
Variable expiry_passed : Z -> result bool.

(** [POST /api/v1/polls/{poll_id}/vote] for the current user. *)
Definition vote_on_poll (pdb : PollDB) (pid option_id : Z) (current_user : User)
    : result PollDB :=
  poll <- find_poll pdb pid ;;
  match poll with
  | None => Raise (HTTPException 404 "Poll not found")
  | Some p =>
      if negb (is_active p) then Raise (HTTPException 400 "Poll is closed") else
      expired <- match expires_at p with
                 | Some e => expiry_passed e
                 | None => Ok false
                 end ;;
      if expired then Raise (HTTPException 400 "Poll has expired") else
      existing <- scalar_one_or_none_of
                    (filter (fun v => Z.eqb (vote_poll_id v) pid
                                      && Z.eqb (vote_user_id v) (id current_user))
                       (poll_votes pdb)) ;;
      match existing with
      | Some _ => Raise (HTTPException 400 "You have already voted on this poll")
      | None =>
          if existsb (Z.eqb option_id) (map fst (poll_options p)) then
            Ok {| polls := polls pdb;
                  poll_votes := poll_votes pdb
                    ++ [{| vote_id := next_vote_id pdb; vote_poll_id := pid;
                           vote_user_id := id current_user;
                           vote_option_id := option_id |}];
                  activities := activities pdb; next_poll_id := next_poll_id pdb;
                  next_vote_id := (next_vote_id pdb + 1)%Z |}
          else Raise (HTTPException 400 "Invalid option")
      end
  end.

End Voting.

(** [PATCH /api/v1/polls/{poll_id}/close] for the current user
    ([require_admin]). *)
Definition close_poll (pdb : PollDB) (pid : Z) (current_user : User)
    : result PollDB :=
  _ <- require_admin current_user ;;
  poll <- find_poll pdb pid ;;
  match poll with
  | None => Raise (HTTPException 404 "Poll not found")
  | Some p =>
      if negb (is_active p) then Raise (HTTPException 400 "Poll is already closed")
      else
        let p' := {| poll_id := poll_id p; poll_title := poll_title p;
                     poll_options := poll_options p; is_active := false;
                     expires_at := expires_at p; created_by := created_by p |} in
        let pdb1 := {| polls := map (fun q => if Z.eqb (poll_id q) (poll_id p) then p' else q)
                                  (polls pdb);
                       poll_votes := poll_votes pdb; activities := activities pdb;
                       next_poll_id := next_poll_id pdb; next_vote_id := next_vote_id pdb |} in
        Ok (log_activity pdb1 ("Poll Closed: " ++ poll_title p) (name current_user)
              "close" (Some "poll") (Some pid))
  end.

(** [votes_map.get(option_id, 0)] in [build_poll_response]: the number of
    votes of the poll for the option. *)
Definition count_votes (vs : list PollVote) (pid oid : Z) : nat :=
  length (filter (fun v => Z.eqb (vote_poll_id v) pid && Z.eqb (vote_option_id v) oid) vs).

(** [total_votes = sum(votes_map.values())]: the groups partition the votes
    of the poll. *)
Definition total_votes (vs : list PollVote) (pid : Z) : nat :=
  length (filter (fun v => Z.eqb (vote_poll_id v) pid) vs).

(** The [(id, text, votes)] of each option of [build_poll_response], in
    the poll's order (the percentages are not modelled). *)
Definition poll_option_counts (pdb : PollDB) (p : Poll) : list (Z * string * nat) :=
  map (fun o => (fst o, snd o, count_votes (poll_votes pdb) (poll_id p) (fst o)))
    (poll_options p).

(** Table constraints of [polls] and [poll_votes]: primary keys,
    [UNIQUE(poll_id, user_id)] and the id sequences ahead of the ids. *)
Record poll_db_wf (pdb : PollDB) : Prop := {
  pwf_poll_ids : NoDup (map poll_id (polls pdb));
  pwf_vote_ids : NoDup (map vote_id (poll_votes pdb));
  pwf_one_vote : NoDup (map (fun v => (vote_poll_id v, vote_user_id v)) (poll_votes pdb));
  pwf_next_poll : Forall (fun p => (poll_id p < next_poll_id pdb)%Z) (polls pdb);
  pwf_next_vote : Forall (fun v => (vote_id v < next_vote_id pdb)%Z) (poll_votes pdb)
}.

(** Every vote is for a stored poll and names one of its options. *)
Definition votes_valid (pdb : PollDB) : Prop :=
  Forall (fun v => exists p, In p (polls pdb) /\ poll_id p = vote_poll_id v
                             /\ In (vote_option_id v) (map fst (poll_options p)))
    (poll_votes pdb).

(* ------------------------------------------------------------------ *)
(** ** Notifications ([app/models/notification.py],
       [app/routers/notifications.py]) *)

Record Notification := mkNotification {
  notif_id : Z;
  notif_user_id : Z;
  notif_title : string;
  notif_message : string;
  notif_type : string;
  is_read : bool
}.

Record NotifDB := mkNotifDB {
  notifications : list Notification;
  next_notif_id : Z
}.

(** [GET /api/v1/notifications/unread-count] for the current user. *)
Definition get_unread_count (ndb : NotifDB) (current_user : User) : Z :=
  Z.of_nat (length (filter (fun n => Z.eqb (notif_user_id n) (id current_user)
                                     && negb (is_read n))
                      (notifications ndb))).

Definition set_read (n : Notification) : Notification :=
  {| notif_id := notif_id n; notif_user_id := notif_user_id n;
     notif_title := notif_title n; notif_message := notif_message n;
     notif_type := notif_type n; is_read := true |}.

(** [PATCH /api/v1/notifications/{notification_id}/read] for the current
    user. *)
Definition mark_as_read (ndb : NotifDB) (notification_id : Z) (current_user : User)
    : result NotifDB :=
  notification <- scalar_one_or_none_of
                    (filter (fun n => Z.eqb (notif_id n) notification_id
                                      && Z.eqb (notif_user_id n) (id current_user))
                       (notifications ndb)) ;;
  match notification with
  | None => Raise (HTTPException 404 "Notification not found")
  | Some n =>
      Ok {| notifications := map (fun m => if Z.eqb (notif_id m) (notif_id n)
                                           then set_read n else m)
                               (notifications ndb);
            next_notif_id := next_notif_id ndb |}
  end.

(** [PATCH /api/v1/notifications/read-all] for the current user. *)
Definition mark_all_as_read (ndb : NotifDB) (current_user : User) : NotifDB :=
  {| notifications :=
       map (fun n => if Z.eqb (notif_user_id n) (id current_user) && negb (is_read n)
                     then set_read n else n)
         (notifications ndb);
     next_notif_id := next_notif_id ndb |}.

Record NotificationCreate := mkNotificationCreate {
  nc_user_id : Z;
  nc_title : string;
  nc_message : string;
  nc_type : string
}.

(** [POST /api/v1/notifications/send] for the current user
    ([require_admin]). *)
Definition send_notification (db : DB) (ndb : NotifDB) (data : NotificationCreate)
    (current_user : User) : result (Notification * NotifDB) :=
  _ <- require_admin current_user ;;
  target_user <- find_by_id db (nc_user_id data) ;;
  match target_user with
  | None => Raise (HTTPException 404 "Target user not found")
  | Some _ =>
      let n := {| notif_id := next_notif_id ndb; notif_user_id := nc_user_id data;
                  notif_title := nc_title data; notif_message := nc_message data;
                  notif_type := nc_type data; is_read := false |} in
      Ok (n, {| notifications := notifications ndb ++ [n];
                next_notif_id := (next_notif_id ndb + 1)%Z |})
  end.

(** One new notification per user id, numbered from [i]. *)
Fixpoint new_notifications (i : Z) (user_ids : list Z)
    (title message notification_type : string) : list Notification :=
  match user_ids with
  | [] => []
  | uid :: rest =>
      {| notif_id := i; notif_user_id := uid; notif_title := title;
         notif_message := message; notif_type := notification_type;
         is_read := false |}
      :: new_notifications (i + 1) rest title message notification_type
  end.

(** [POST /api/v1/notifications/broadcast] for the current user
    ([require_admin]): the [count] of the response and the store after the
    commit. *)
Definition broadcast_notification (db : DB) (ndb : NotifDB)
    (title message notification_type : string) (current_user : User)
    : result (Z * NotifDB) :=
  _ <- require_admin current_user ;;
  let user_ids := map id (users db) in
  Ok (Z.of_nat (length user_ids),
      {| notifications := notifications ndb
                          ++ new_notifications (next_notif_id ndb) user_ids
                               title message notification_type;
         next_notif_id := (next_notif_id ndb + Z.of_nat (length user_ids))%Z |}).

(* ------------------------------------------------------------------ *)
(** ** Concrete inputs *)

Definition test_settings : Settings :=
  default_settings "postgresql+asyncpg://localhost:5432/nextstep" "test-secret".

Definition other_settings : Settings :=
  default_settings "postgresql+asyncpg://localhost:5432/nextstep" "other-secret".

(** The defaults with a secret that python-jose uses as it is. *)
Definition jwt_settings : Settings :=
  default_settings "postgresql+asyncpg://localhost:5432/nextstep" "change-me-in-production".

(** 2023-11-14T22:13:20Z, in microseconds. *)
Definition t0 : Z := 1700000000000000.

(** A password account. *)
Definition alice : User :=
  {| id := 1; email := "alice@school.edu"; name := "Alice";
     hashed_password := Some "$argon2id$v=19$m=65536,t=3,p=4$c2FsdA$aGFzaA";
     role := STUDENT; avatar := None; department := Some "Science";
     google_id := None |}.

(** A Google-only account. *)
Definition bob : User :=
  {| id := 2; email := "bob@gmail.com"; name := "Bob";
     hashed_password := None; role := TEACHER;
     avatar := Some "https://lh3.googleusercontent.com/bob";
     department := None; google_id := Some "1234567890" |}.

(** An account whose stored hash is not an argon2 hash. *)
Definition carol : User :=
  {| id := 3; email := "carol@school.edu"; name := "Carol";
     hashed_password := Some "plaintext-password"; role := STUDENT;
     avatar := None; department := None; google_id := None |}.

Definition db0 : DB := {| users := [alice; bob]; next_id := 3 |}.

Definition db_carol : DB := {| users := [alice; bob; carol]; next_id := 4 |}.

(** A Google identity for the email of [alice]. *)
Definition gd_alice : GoogleData :=
  {| gd_google_id := "5550001"; gd_email := "alice@school.edu";
     gd_name := "Alice G."; gd_avatar := Some "https://lh3.googleusercontent.com/alice" |}.

(** The Google identity of [bob]. *)
Definition gd_bob : GoogleData :=
  {| gd_google_id := "1234567890"; gd_email := "bob@gmail.com";
     gd_name := "Bob"; gd_avatar := None |}.

(** An argon2 handler that rejects every password. *)
Definition argon2_reject (_ _ : string) : result bool := Ok false.

(** The Google verifier accepting the token ["ios-token"] for the iOS
    client id only. *)
Definition google_ios_only (tok : string) (aud : attr_val) : result dict :=
  match aud with
  | AStr a =>
      if String.eqb tok "ios-token" && String.eqb a "222-ios.apps.googleusercontent.com"
      then Ok [("iss", JStr "https://accounts.google.com"); ("sub", JStr "5550001");
               ("email", JStr "alice@school.edu"); ("name", JStr "Alice G.")]
      else Raise (ValueError "Token has wrong audience")
  | _ => Raise (ValueError "Token has wrong audience")
  end.



(** A bearer token signed with the server key whose subject is not a
    number. *)
Definition token_sub_abc : token :=
  create_access_token test_settings [("sub", JStr "abc")] None t0.

(** Proves [db_wf] of a concrete store. *)
Ltac solve_db_wf :=
  constructor; simpl;
  repeat (apply NoDup_cons; [simpl; intuition discriminate|]);
  try apply NoDup_nil;
  repeat apply Forall_cons; try apply Forall_nil; simpl; lia.

(** An admin account (not needed in the [users] table by the poll and
    notification routes, which only read the current user). *)
Definition dana : User :=
  {| id := 4; email := "dana@school.edu"; name := "Dana";
     hashed_password := Some "$argon2id$v=19$m=65536,t=3,p=4$c2FsdA$ZGFuYQ";
     role := ADMIN; avatar := None; department := Some "Administration";
     google_id := None |}.

(** An open poll with three options and no expiry. *)
Definition poll1 : Poll :=
  {| poll_id := 1; poll_title := "Best meeting day?";
     poll_options := [(1%Z, "Monday"); (2%Z, "Wednesday"); (3%Z, "Friday")];
     is_active := true; expires_at := None; created_by := 4 |}.

Definition pdb0 : PollDB :=
  {| polls := [poll1]; poll_votes := []; activities := [];
     next_poll_id := 2; next_vote_id := 1 |}.

(** [poll1] with a vote of [alice] and a vote of [bob], both for option 2. *)
Definition pdb_votes : PollDB :=
  {| polls := [poll1];
     poll_votes := [{| vote_id := 1; vote_poll_id := 1; vote_user_id := 1; vote_option_id := 2 |};
                    {| vote_id := 2; vote_poll_id := 1; vote_user_id := 2; vote_option_id := 2 |}];
     activities := []; next_poll_id := 2; next_vote_id := 3 |}.

(** The expiry comparison when no stored expiry has passed. *)
Definition never_expired (_ : Z) : result bool := Ok false.

Definition new_poll : PollCreate :=
  {| pc_title := "Lunch break length?"; pc_options := [(1%Z, "30 min"); (2%Z, "45 min")];
     pc_expires_at := None |}.

(** One unread notification for [alice] and one for [bob]. *)
Definition ndb0 : NotifDB :=
  {| notifications :=
       [{| notif_id := 1; notif_user_id := 1; notif_title := "Schedule Updated";
           notif_message := "The Science schedule changed."; notif_type := "info";
           is_read := false |};
        {| notif_id := 2; notif_user_id := 2; notif_title := "Poll";
           notif_message := "A new poll is open."; notif_type := "info";
           is_read := false |}];
     next_notif_id := 3 |}.

(** Proves [poll_db_wf] of a concrete store. *)
Ltac solve_poll_db_wf :=
  constructor; simpl;
  repeat (apply NoDup_cons; [simpl; intuition discriminate|]);
  try apply NoDup_nil;
  repeat apply Forall_cons; try apply Forall_nil; simpl; lia.

(* ================================================================== *)
(** * Properties *)

(* ------------------------------------------------------------------ *)
(** ** Dicts *)

Lemma jval_eqb_refl (v : jval) : jval_eqb v v = true.
Proof.
  destruct v; simpl;
    [reflexivity | apply eqb_reflx | apply Z.eqb_refl
    | apply String.eqb_refl | apply Z.eqb_refl].
Qed.

Lemma dict_eqb_refl (d : dict) : dict_eqb d d = true.
Proof.
  induction d as [|[k v] d IH]; simpl; [reflexivity|].
  now rewrite String.eqb_refl, jval_eqb_refl, IH.
Qed.



Lemma dict_get_encode (d : dict) (k : string) :
  dict_get (map (fun kv => (fst kv, encode_time_claim (fst kv) (snd kv))) d) k
  = option_map (encode_time_claim k) (dict_get d k).
Proof.
  induction d as [|[k' v] d IH]; simpl; [reflexivity|].
  destruct (String.eqb k k') eqn:E; [|exact IH].
  apply String.eqb_eq in E; now subst.
Qed.

(* ------------------------------------------------------------------ *)
(** ** Token service *)

Lemma jwt_encode_claims (claims : dict) (key alg : string) :
  exists claims',
    jwt_encode claims key alg =
    Compact [("alg", JStr alg); ("typ", JStr "JWT")] claims'
      (Mac key alg [("alg", JStr alg); ("typ", JStr "JWT")] claims')
    /\ forall k, dict_get claims' k = option_map (encode_time_claim k) (dict_get claims k).
Proof.
  eexists; split; [reflexivity|]. intros k. apply dict_get_encode.
Qed.

(** Decoding with the verifier's own key and algorithm accepts a token the
    library signed, up to claim validation. *)
Lemma jwt_decode_own (key alg : string) (claims : dict) (now_us : Z) :
  jwt_decode (Compact [("alg", JStr alg); ("typ", JStr "JWT")] claims
                (Mac key alg [("alg", JStr alg); ("typ", JStr "JWT")] claims))
             key [alg] now_us
  = (_ <- validate_claims claims now_us ;; Ok claims).
Proof.
  simpl. rewrite String.eqb_refl. simpl.
  rewrite !String.eqb_refl, !dict_eqb_refl. reflexivity.
Qed.


(** Decoding with a key other than the signing key always fails with a
    [JWTError]. *)
Lemma jwt_decode_other_key (key key' alg : string) (hdr claims : dict)
    (algorithms : list string) (now_us : Z) :
  key <> key' ->
  exists k m, jwt_decode (Compact hdr claims (Mac key' alg hdr claims)) key algorithms now_us
              = Raise (JWTError k m).
Proof.
  intros Hne. simpl.
  destruct (dict_get hdr "alg") as [[| | |a|]|];
    try (do 2 eexists; reflexivity).
  destruct (existsb (String.eqb a) algorithms); [|do 2 eexists; reflexivity].
  replace (String.eqb key' key) with false
    by (symmetry; apply String.eqb_neq; congruence).
  simpl. do 2 eexists; reflexivity.
Qed.

(** [decode_token] gives [None] whenever the library raises a [JWTError]. *)
Lemma decode_token_none (settings : Settings) (tok : token) (now_us : Z) k m :
  jwt_decode tok (secret_key settings) [algorithm settings] now_us = Raise (JWTError k m) ->
  decode_token settings tok now_us = Ok None.
Proof. intros H. unfold decode_token. now rewrite H. Qed.

Lemma create_access_token_shape (settings : Settings) (c : dict)
    (ttl : option Z) (now_us : Z) :
  exists (exp_us : Z) (cl : dict),
    create_access_token settings c ttl now_us =
    Compact [("alg", JStr (algorithm settings)); ("typ", JStr "JWT")] cl
      (Mac (secret_key settings) (algorithm settings)
         [("alg", JStr (algorithm settings)); ("typ", JStr "JWT")] cl)
    /\ (forall k, dict_get cl k =
                  option_map (encode_time_claim k) (dict_get (dict_set c "exp" (JDateTime exp_us)) k))
    /\ exp_us = match ttl with
                | Some d => if timedelta_truthy ttl then (now_us + d)%Z
                            else (now_us + access_token_expire_minutes settings * 60 * us_per_s)%Z
                | None => (now_us + access_token_expire_minutes settings * 60 * us_per_s)%Z
                end.
Proof.
  unfold create_access_token, access_token_claims.
  match goal with
  | |- context [jwt_encode (dict_set c "exp" (JDateTime ?x)) ?k ?a] =>
      destruct (jwt_encode_claims (dict_set c "exp" (JDateTime x)) k a) as [cl [Ht Hg]];
      exists x, cl; rewrite Ht; auto
  end.
Qed.

(** No [datetime] is left for [json.dumps] once the time claims are
    converted, when only [exp] may hold one. *)
Lemma encode_no_datetime (d : dict) :
  forallb (fun kv => String.eqb (fst kv) "exp" || negb (is_datetime (snd kv))) d = true ->
  existsb (fun kv => is_datetime (snd kv))
    (map (fun kv => (fst kv, encode_time_claim (fst kv) (snd kv))) d) = false.
Proof.
  induction d as [|[k v] d IH]; simpl; [reflexivity|].
  intros H. apply andb_true_iff in H as [H1 H2]. rewrite (IH H2), orb_false_r.
  destruct v; simpl; try reflexivity.
  destruct (String.eqb k "exp") eqn:E; simpl in *; [|discriminate].
  reflexivity.
Qed.

Lemma forallb_dict_set_exp (d : dict) (v : jval) :
  forallb (fun kv => String.eqb (fst kv) "exp" || negb (is_datetime (snd kv))) d = true ->
  forallb (fun kv => String.eqb (fst kv) "exp" || negb (is_datetime (snd kv)))
    (dict_set d "exp" v) = true.
Proof.
  induction d as [|[k w] d IH]; cbn [dict_set forallb fst snd]; intros H.
  - rewrite String.eqb_refl. reflexivity.
  - apply andb_true_iff in H as [H1 H2].
    destruct (String.eqb "exp" k) eqn:E; cbn [forallb fst snd].
    + apply String.eqb_eq in E. subst k. rewrite String.eqb_refl. exact H2.
    + rewrite H1. exact (IH H2).
Qed.

(** For an HMAC algorithm, a secret free of asymmetric-key markers and
    claims holding no [datetime] except under [exp], [jwt.encode] does not
    raise: the token service issues the token of [create_access_token]. *)
Lemma issue_access_token_ok (settings : Settings) (c : dict) (ttl : option Z)
    (now_us : Z) :
  In (algorithm settings) hmac_algorithms ->
  existsb (str_contains (secret_key settings)) hmac_invalid_strings = false ->
  forallb (fun kv => String.eqb (fst kv) "exp" || negb (is_datetime (snd kv))) c = true ->
  issue_access_token settings c ttl now_us = Ok (create_access_token settings c ttl now_us).
Proof.
  intros Halg Hkey Hc.
  unfold issue_access_token, create_access_token, jwt_encode_checked, jwt_encode_error.
  assert (Hh : existsb (String.eqb (algorithm settings)) hmac_algorithms = true).
  { apply existsb_exists. exists (algorithm settings). split; [exact Halg|apply String.eqb_refl]. }
  assert (Hj : existsb (String.eqb (algorithm settings)) jws_algorithms = true).
  { unfold jws_algorithms. rewrite existsb_app, Hh. reflexivity. }
  rewrite Hj, Hh, Hkey. unfold access_token_claims.
  rewrite encode_no_datetime by (apply forallb_dict_set_exp; exact Hc).
  reflexivity.
Qed.



(** C7 (code): the server signs a token whose claims hold [nbf] set to
    [None] ([create_access_token({"sub": s, "nbf": None})], for every
    subject, ttl and configuration with an HMAC algorithm and a plain
    secret); [decode_token] on it, at any time, raises the [TypeError] of
    python-jose's [int(None)], which its [except JWTError] does not catch,
    instead of returning the claims or [None]. *)
Theorem decode_token_null_nbf_raises (settings : Settings) (s : string)
    (ttl : option Z) (now_us v : Z) :
  In (algorithm settings) hmac_algorithms ->
  existsb (str_contains (secret_key settings)) hmac_invalid_strings = false ->
  json_loads_fails_at_start (secret_key settings) = true ->
  exists tok,
    issue_access_token settings [("sub", JStr s); ("nbf", JNull)] ttl now_us = Ok tok
    /\ decode_token settings tok v
       = Raise (TypeError "int() argument must be a string, a bytes-like object or a real number, not 'NoneType'").
Proof.
  intros Halg Hkey _.
  rewrite (issue_access_token_ok settings [("sub", JStr s); ("nbf", JNull)] ttl now_us Halg Hkey eq_refl).
  eexists. split; [reflexivity|].
  destruct (create_access_token_shape settings [("sub", JStr s); ("nbf", JNull)] ttl now_us)
    as (x & cl & -> & Hget & _).
  unfold decode_token. rewrite jwt_decode_own.
  unfold validate_claims, validate_iat, validate_nbf.
  rewrite !Hget. reflexivity.
Qed.

(* ------------------------------------------------------------------ *)
(** ** Lookups in a well-formed store *)

Lemma NoDup_map_inj {A B} (f : A -> B) (l : list A) (x y : A) :
  NoDup (map f l) -> In x l -> In y l -> f x = f y -> x = y.
Proof.
  induction l as [|a l IH]; simpl; [tauto|].
  intros Hnd Hx Hy Hf. inversion Hnd as [|? ? Hnin Hnd']; subst.
  destruct Hx as [<-|Hx], Hy as [<-|Hy]; auto.
  - exfalso. apply Hnin. rewrite Hf. now apply in_map.
  - exfalso. apply Hnin. rewrite <- Hf. now apply in_map.
Qed.

Lemma scalar_one_or_none_some (p : User -> bool) (l : list User) (u : User) :
  scalar_one_or_none (filter p l) = Ok (Some u) -> In u l /\ p u = true.
Proof.
  unfold scalar_one_or_none. intros H.
  destruct (filter p l) as [|x [|y r]] eqn:E; try discriminate.
  inversion H; subst. apply filter_In. rewrite E. now left.
Qed.

Lemma scalar_one_or_none_none (p : User -> bool) (l : list User) :
  scalar_one_or_none (filter p l) = Ok None -> forall v, In v l -> p v = false.
Proof.
  unfold scalar_one_or_none. intros H v Hv.
  destruct (filter p l) as [|x [|y r]] eqn:E; try discriminate.
  destruct (p v) eqn:Hp; [|reflexivity].
  assert (In v (filter p l)) by (apply filter_In; auto). rewrite E in H0. destruct H0.
Qed.

Lemma filter_unique (p : User -> bool) (f : User -> Z) (l : list User) (u : User) :
  NoDup (map f l) -> In u l -> p u = true ->
  (forall v, In v l -> p v = true -> f v = f u) ->
  filter p l = [u].
Proof.
  induction l as [|a l IH]; simpl; [tauto|].
  intros Hnd Hu Hp Hall. inversion Hnd as [|? ? Hnin Hnd']; subst.
  destruct Hu as [<-|Hu].
  - rewrite Hp. f_equal.
    destruct (filter p l) as [|b r] eqn:E; [reflexivity|].
    exfalso. assert (Hb : In b (filter p l)) by (rewrite E; now left).
    apply filter_In in Hb as [Hb Hpb].
    apply Hnin. rewrite <- (Hall b (or_intror Hb) Hpb). now apply in_map.
  - destruct (p a) eqn:Ha.
    + exfalso. apply Hnin. rewrite (Hall a (or_introl eq_refl) Ha). now apply in_map.
    + apply IH; auto.
Qed.

Lemma filter_none (p : User -> bool) (l : list User) :
  (forall v, In v l -> p v = false) -> scalar_one_or_none (filter p l) = Ok None.
Proof.
  intros H. replace (filter p l) with (@nil User); [reflexivity|].
  induction l as [|a l IH]; simpl; [reflexivity|].
  rewrite (H a (or_introl eq_refl)). apply IH. intros v Hv. apply H. now right.
Qed.

Lemma in_gids (l : list User) (x : string) :
  In x (gids l) <-> exists v, In v l /\ google_id v = Some x.
Proof.
  unfold gids. rewrite in_flat_map. split.
  - intros [v [Hv Hx]]. exists v. split; [exact Hv|].
    destruct (google_id v); simpl in Hx; [|destruct Hx].
    destruct Hx as [->|[]]; reflexivity.
  - intros [v [Hv Hx]]. exists v. rewrite Hx. split; [exact Hv|now left].
Qed.

Lemma opt_str_eqb_true (o : option string) (s : string) :
  opt_str_eqb o s = true <-> o = Some s.
Proof.
  destruct o as [x|]; simpl; [|split; discriminate].
  rewrite String.eqb_eq. split; congruence.
Qed.

(** In a well-formed store, the user holding a Google id is the one row the
    lookup by that id returns. *)
Lemma find_by_google_id_in (db : DB) (u : User) (g : string) :
  db_wf db -> In u (users db) -> google_id u = Some g ->
  find_by_google_id db g = Ok (Some u).
Proof.
  intros Hwf Hu Hg. unfold find_by_google_id.
  rewrite (filter_unique _ id _ u (wf_ids _ Hwf) Hu); [reflexivity| |].
  - now apply opt_str_eqb_true.
  - intros v Hv Hp. apply opt_str_eqb_true in Hp. f_equal.
    assert (Hn := wf_gids _ Hwf).
    clear -Hn Hu Hv Hg Hp. induction (users db) as [|a l IH]; [destruct Hu|].
    unfold gids in Hn; simpl in Hn. fold (gids l) in Hn.
    destruct Hu as [<-|Hu], Hv as [<-|Hv]; auto.
    + exfalso. rewrite Hg in Hn. inversion Hn; subst.
      apply H1, in_gids. eauto.
    + exfalso. rewrite Hp in Hn. inversion Hn; subst.
      apply H1, in_gids. eauto.
    + apply IH; auto. now apply NoDup_app_remove_l in Hn.
Qed.

Lemma find_by_email_in (db : DB) (u : User) :
  db_wf db -> In u (users db) -> find_by_email db (email u) = Ok (Some u).
Proof.
  intros Hwf Hu. unfold find_by_email.
  rewrite (filter_unique _ id _ u (wf_ids _ Hwf) Hu); [reflexivity| |].
  - apply String.eqb_refl.
  - intros v Hv Hp. apply String.eqb_eq in Hp. f_equal.
    exact (NoDup_map_inj email _ v u (wf_emails _ Hwf) Hv Hu Hp).
Qed.

(* ------------------------------------------------------------------ *)
(** ** Writes preserve the table constraints *)

Definition upd (u' : User) (v : User) : User :=
  if Z.eqb (id v) (id u') then u' else v.

Lemma map_upd_fresh (u' : User) (l : list User) :
  ~ In (id u') (map id l) -> map (upd u') l = l.
Proof.
  induction l as [|a l IH]; simpl; [reflexivity|].
  intros Hn. unfold upd at 1.
  replace (Z.eqb (id a) (id u')) with false
    by (symmetry; apply Z.eqb_neq; intros E; apply Hn; now left).
  f_equal. apply IH. tauto.
Qed.

Lemma NoDup_app_disjoint {A} (l1 l2 : list A) (x : A) :
  NoDup (l1 ++ l2) -> In x l1 -> ~ In x l2.
Proof.
  induction l1 as [|a l1 IH]; simpl; [tauto|].
  intros Hnd [<-|Hx] Hx2; inversion Hnd as [|? ? Hnin Hnd']; subst.
  - apply Hnin. apply in_app_iff. now right.
  - exact (IH Hnd' Hx Hx2).
Qed.

Lemma gids_map_upd (l : list User) (u u' : User) (g : string) :
  NoDup (map id l) -> In u l -> id u' = id u -> google_id u' = Some g ->
  (forall v, In v l -> google_id v <> Some g) ->
  NoDup (gids l) -> NoDup (gids (map (upd u') l)).
Proof.
  induction l as [|a l IH]; intros Hi Hu Hid Hg Hfresh Hgi; [destruct Hu|].
  simpl in Hi. inversion Hi as [|? ? Hnin Hi']; subst.
  unfold gids in *; simpl in *. fold (gids l) in *. fold (gids (map (upd u') l)).
  unfold upd at 1. destruct (Z.eqb (id a) (id u')) eqn:E.
  - apply Z.eqb_eq in E. rewrite map_upd_fresh by congruence.
    rewrite Hg. simpl. constructor.
    + intros Hin. apply in_gids in Hin as [w [Hw Hwg]].
      exact (Hfresh w (or_intror Hw) Hwg).
    + now apply NoDup_app_remove_l in Hgi.
  - destruct Hu as [<-|Hu]; [apply Z.eqb_neq in E; congruence|].
    apply NoDup_app.
    + now apply NoDup_app_remove_r in Hgi.
    + apply IH; auto. now apply NoDup_app_remove_l in Hgi.
    + intros x Hx Hx'. apply in_gids in Hx' as [w [Hw Hwx]].
      apply in_map_iff in Hw as [w0 [<- Hw0]].
      assert (Hax : google_id a = Some x).
      { destruct (google_id a); simpl in Hx; [|destruct Hx].
        destruct Hx as [->|[]]; reflexivity. }
      unfold upd in Hwx. destruct (Z.eqb (id w0) (id u')).
      * apply (Hfresh a (or_introl eq_refl)). congruence.
      * apply (NoDup_app_disjoint _ _ x Hgi Hx).
        apply in_gids. eauto.
Qed.

Lemma db_update_wf (db : DB) (u u' : User) (g : string) :
  db_wf db -> In u (users db) -> id u' = id u -> email u' = email u ->
  google_id u' = Some g ->
  (forall v, In v (users db) -> google_id v <> Some g) ->
  db_wf (db_update db u') /\ In u' (users (db_update db u'))
  /\ length (users (db_update db u')) = length (users db).
Proof.
  intros Hwf Hu Hid Hem Hg Hfresh.
  assert (Hsame : forall v, In v (users db) -> id v = id u' -> v = u).
  { intros v Hv E. apply (NoDup_map_inj id (users db)); auto using wf_ids. congruence. }
  assert (Hids : map id (map (upd u') (users db)) = map id (users db)).
  { rewrite map_map. apply map_ext. intros v. unfold upd.
    destruct (Z.eqb (id v) (id u')) eqn:E; [apply Z.eqb_eq in E; congruence|reflexivity]. }
  assert (Hems : map email (map (upd u') (users db)) = map email (users db)).
  { rewrite map_map. apply map_ext_in. intros v Hv. unfold upd.
    destruct (Z.eqb (id v) (id u')) eqn:E; [|reflexivity].
    apply Z.eqb_eq in E. rewrite (Hsame v Hv E). congruence. }
  unfold db_update; simpl. fold (upd u').
  split; [|split].
  - destruct Hwf as [Hi He Hgi Hn]. constructor; simpl.
    + now rewrite Hids.
    + now rewrite Hems.
    + apply (gids_map_upd _ u u' g); auto.
    + rewrite Forall_map. eapply Forall_impl; [|exact Hn].
      intros v Hv. unfold upd. destruct (Z.eqb (id v) (id u')) eqn:E; [|exact Hv].
      apply Z.eqb_eq in E. congruence.
  - apply in_map_iff. exists u. split; [|exact Hu].
    unfold upd. now rewrite Hid, Z.eqb_refl.
  - apply length_map.
Qed.

Lemma db_insert_wf (db : DB) (w : User) (g : string) :
  db_wf db -> id w = next_id db -> google_id w = Some g ->
  (forall v, In v (users db) -> google_id v <> Some g /\ email v <> email w) ->
  db_wf {| users := users db ++ [w]; next_id := (next_id db + 1)%Z |}.
Proof.
  intros [Hi He Hgi Hn] Hid Hg Hfresh. constructor; simpl.
  - rewrite map_app. apply NoDup_app; [exact Hi|repeat constructor; simpl; tauto|].
    intros x Hx [<-|[]]. apply in_map_iff in Hx as [v [Hv Hvx]].
    rewrite Forall_forall in Hn. specialize (Hn v Hvx). lia.
  - rewrite map_app. apply NoDup_app; [exact He|repeat constructor; simpl; tauto|].
    intros x Hx [<-|[]]. apply in_map_iff in Hx as [v [Hv Hvx]].
    exact (proj2 (Hfresh v Hvx) Hv).
  - unfold gids. rewrite flat_map_app. simpl. rewrite Hg. simpl. fold (gids (users db)).
    apply NoDup_app; [exact Hgi|repeat constructor; simpl; tauto|].
    intros x Hx [<-|[]]. apply in_gids in Hx as [v [Hv Hvx]].
    exact (proj1 (Hfresh v Hv) Hvx).
  - apply Forall_app. split.
    + eapply Forall_impl; [|exact Hn]. simpl. intros v Hv. lia.
    + constructor; [simpl; lia|constructor].
Qed.

Lemma opt_str_eqb_false (o : option string) (s : string) :
  opt_str_eqb o s = false -> o <> Some s.
Proof.
  intros H E. apply opt_str_eqb_true in E. congruence.
Qed.

(** C4: [get_or_create_google_user] on a well-formed store follows its
    three branches in order: (1) the user holding the Google id is returned
    and the store is unchanged; (2) otherwise the user with the same email
    gets the Google id, adopts the Google avatar only when it has none and
    the identity has one, keeps every other field, and is written back in
    place (no new row); (3) otherwise a new row is created with the Google
    id, email, name and avatar, role [STUDENT] and no password hash. *)
Theorem get_or_create_google_user_branches (db : DB) (gd : GoogleData) :
  db_wf db ->
  (forall u, In u (users db) -> google_id u = Some (gd_google_id gd) ->
     get_or_create_google_user db gd = Ok (u, db))
  /\ ((forall v, In v (users db) -> google_id v <> Some (gd_google_id gd)) ->
      forall u, In u (users db) -> email u = gd_email gd ->
      let u' := {| id := id u; email := email u; name := name u;
                   hashed_password := hashed_password u; role := role u;
                   avatar := if negb (str_truthy (avatar u)) && str_truthy (gd_avatar gd)
                             then gd_avatar gd else avatar u;
                   department := department u;
                   google_id := Some (gd_google_id gd) |} in
      get_or_create_google_user db gd = Ok (u', db_update db u')
      /\ length (users (db_update db u')) = length (users db))
  /\ ((forall v, In v (users db) ->
         google_id v <> Some (gd_google_id gd) /\ email v <> gd_email gd) ->
      let u' := {| id := next_id db; email := gd_email gd; name := gd_name gd;
                   hashed_password := None; role := STUDENT;
                   avatar := gd_avatar gd; department := None;
                   google_id := Some (gd_google_id gd) |} in
      get_or_create_google_user db gd
      = Ok (u', {| users := users db ++ [u']; next_id := (next_id db + 1)%Z |})).
Proof.
  intros Hwf. split; [|split].
  - intros u Hu Hg. unfold get_or_create_google_user.
    now rewrite (find_by_google_id_in db u _ Hwf Hu Hg).
  - intros Hnog u Hu He u'. unfold get_or_create_google_user, find_by_google_id.
    rewrite filter_none
      by (intros v Hv; destruct (opt_str_eqb (google_id v) (gd_google_id gd)) eqn:E;
          [apply opt_str_eqb_true in E; exfalso; exact (Hnog v Hv E)|reflexivity]).
    simpl. rewrite <- He, (find_by_email_in db u Hwf Hu). simpl.
    split; [reflexivity|]. unfold db_update; simpl. apply length_map.
  - intros Hno u'. unfold get_or_create_google_user, find_by_google_id.
    rewrite filter_none
      by (intros v Hv; destruct (opt_str_eqb (google_id v) (gd_google_id gd)) eqn:E;
          [apply opt_str_eqb_true in E; exfalso; exact (proj1 (Hno v Hv) E)|reflexivity]).
    simpl. unfold find_by_email.
    rewrite filter_none
      by (intros v Hv; apply String.eqb_neq; exact (proj2 (Hno v Hv))).
    reflexivity.
Qed.

(** C5 (as amended): calling [get_or_create_google_user] a second time with
    the same identity, on the store left by the first call, returns the same
    user and leaves the store unchanged; the two calls together add one row
    when no stored user had the Google id or the email, and none
    otherwise. *)
Theorem get_or_create_google_user_twice (db : DB) (gd : GoogleData)
    (u1 : User) (db1 : DB) :
  db_wf db ->
  get_or_create_google_user db gd = Ok (u1, db1) ->
  get_or_create_google_user db1 gd = Ok (u1, db1)
  /\ db_wf db1
  /\ ( ((forall v, In v (users db) ->
           google_id v <> Some (gd_google_id gd) /\ email v <> gd_email gd)
        /\ length (users db1) = S (length (users db)))
     \/ ((exists v, In v (users db) /\
            (google_id v = Some (gd_google_id gd) \/ email v = gd_email gd))
         /\ length (users db1) = length (users db)) ).
Proof.
  intros Hwf H. unfold get_or_create_google_user in H.
  destruct (find_by_google_id db (gd_google_id gd)) as [[u|]|e] eqn:E1;
    simpl in H; try discriminate.
  - (* found by Google id *)
    inversion H; subst u1 db1.
    apply scalar_one_or_none_some in E1 as [Hu Hg]. apply opt_str_eqb_true in Hg.
    split; [|split; [exact Hwf|right; split; [exists u; auto|reflexivity]]].
    unfold get_or_create_google_user.
    now rewrite (find_by_google_id_in db u _ Hwf Hu Hg).
  - assert (Hnog : forall v, In v (users db) -> google_id v <> Some (gd_google_id gd)).
    { intros v Hv. apply opt_str_eqb_false.
      exact (scalar_one_or_none_none _ _ E1 v Hv). }
    destruct (find_by_email db (gd_email gd)) as [[u|]|e] eqn:E2;
      simpl in H; try discriminate.
    + (* linked by email *)
      inversion H; subst u1 db1; clear H.
      apply scalar_one_or_none_some in E2 as [Hu He]. apply String.eqb_eq in He.
      match goal with
      | |- context [get_or_create_google_user (db_update db ?w) gd] =>
          destruct (db_update_wf db u w (gd_google_id gd) Hwf Hu eq_refl eq_refl eq_refl Hnog)
            as (Hwf1 & Hin1 & Hlen1)
      end.
      split; [|split; [exact Hwf1|right; split; [exists u; auto|exact Hlen1]]].
      unfold get_or_create_google_user.
      now rewrite (find_by_google_id_in _ _ (gd_google_id gd) Hwf1 Hin1 eq_refl).
    + (* created *)
      inversion H; subst u1 db1; clear H.
      assert (Hnoe : forall v, In v (users db) -> email v <> gd_email gd).
      { intros v Hv. apply String.eqb_neq.
        exact (scalar_one_or_none_none _ _ E2 v Hv). }
      match goal with
      | |- context [get_or_create_google_user {| users := users db ++ [?w]; next_id := ?n |} gd] =>
          assert (Hwf1 : db_wf {| users := users db ++ [w]; next_id := n |})
            by (apply (db_insert_wf db w (gd_google_id gd) Hwf eq_refl eq_refl);
                intros v Hv; split; [apply Hnog|apply Hnoe]; exact Hv)
      end.
      split; [|split; [exact Hwf1|left; split]].
      * unfold get_or_create_google_user.
        erewrite (find_by_google_id_in _ _ (gd_google_id gd) Hwf1); [reflexivity| |reflexivity].
        simpl. apply in_app_iff. right. now left.
      * intros v Hv. split; [apply Hnog|apply Hnoe]; exact Hv.
      * simpl. rewrite length_app. simpl. lia.
Qed.

(** Witness of C4, on [db0] with the Google identity of [alice]'s email. *)
Lemma get_or_create_google_user_branches_witness :
  db_wf db0 /\
  get_or_create_google_user db0 gd_alice
  = Ok ({| id := 1; email := "alice@school.edu"; name := "Alice";
           hashed_password := Some "$argon2id$v=19$m=65536,t=3,p=4$c2FsdA$aGFzaA";
           role := STUDENT; avatar := Some "https://lh3.googleusercontent.com/alice";
           department := Some "Science"; google_id := Some "5550001" |},
        db_update db0
          {| id := 1; email := "alice@school.edu"; name := "Alice";
             hashed_password := Some "$argon2id$v=19$m=65536,t=3,p=4$c2FsdA$aGFzaA";
             role := STUDENT; avatar := Some "https://lh3.googleusercontent.com/alice";
             department := Some "Science"; google_id := Some "5550001" |}).
Proof.
  assert (Hwf : db_wf db0) by solve_db_wf.
  split; [exact Hwf|].
  destruct (get_or_create_google_user_branches db0 gd_alice Hwf) as (_ & H2 & _).
  apply (H2 ltac:(intros v Hv; simpl in Hv; intuition (subst; discriminate))
            alice ltac:(simpl; auto) eq_refl).
Defined.

(** Witness of C5 (amended), calling twice with [alice]'s identity. *)
Lemma get_or_create_google_user_twice_witness :
  exists u1 db1,
    get_or_create_google_user db0 gd_alice = Ok (u1, db1)
    /\ get_or_create_google_user db1 gd_alice = Ok (u1, db1).
Proof.
  assert (Hwf : db_wf db0) by solve_db_wf.
  destruct (get_or_create_google_user db0 gd_alice) as [[u1 db1]|e] eqn:E;
    [|vm_compute in E; discriminate].
  exists u1, db1. split; [reflexivity|].
  exact (proj1 (get_or_create_google_user_twice db0 gd_alice u1 db1 Hwf E)).
Defined.

(** C5 as stated fails: for the identity of [bob], already stored, the two
    calls add no row at all. *)
Lemma get_or_create_google_user_twice_no_creation :
  exists u1 db1 u2 db2,
    get_or_create_google_user db0 gd_bob = Ok (u1, db1)
    /\ get_or_create_google_user db1 gd_bob = Ok (u2, db2)
    /\ length (users db2) = length (users db0)
    /\ length (users db2) <> S (length (users db0)).
Proof.
  do 4 eexists. split; [reflexivity|split; [reflexivity|]].
  split; [reflexivity|simpl; discriminate].
Qed.


(** C7 witness: subject ["1"], default ttl. *)
Lemma decode_token_null_nbf_raises_witness :
  exists tok,
    issue_access_token jwt_settings [("sub", JStr "1"); ("nbf", JNull)] None t0 = Ok tok
    /\ decode_token jwt_settings tok t0
       = Raise (TypeError "int() argument must be a string, a bytes-like object or a real number, not 'NoneType'").
Proof.
  apply (decode_token_null_nbf_raises jwt_settings "1" None t0 t0).
  - simpl. auto.
  - vm_compute. reflexivity.
  - reflexivity.
Defined.

(* ------------------------------------------------------------------ *)
(** ** Local login *)

(** C3: on a well-formed store, [login] fails with the same HTTP 401 and
    the same detail when no user has the email, when the user with the
    email has no password hash ([None] or empty), and when the password
    does not verify against the stored hash. *)
Theorem login_uniform_failure (argon2_verify : string -> string -> result bool)
    (settings : Settings) (db : DB) (em pw : string) (now_us : Z) :
  db_wf db ->
  ( (forall v, In v (users db) -> email v <> em)
    \/ (exists u, In u (users db) /\ email u = em
                  /\ str_truthy (hashed_password u) = false)
    \/ (exists u h, In u (users db) /\ email u = em /\ hashed_password u = Some h
                    /\ verify_password argon2_verify pw h = Ok false) ) ->
  login argon2_verify settings db em pw now_us
  = Raise (HTTPException 401 "Invalid email or password").
Proof.
  intros Hwf [Hnone | [[u (Hu & He & Hh)] | (u & h & Hu & He & Hh & Hv)]];
    unfold login, authenticate_user.
  - unfold find_by_email. rewrite filter_none; [reflexivity|].
    intros v Hv. apply String.eqb_neq. exact (Hnone v Hv).
  - subst em. rewrite (find_by_email_in db u Hwf Hu). simpl.
    now rewrite Hh.
  - subst em. rewrite (find_by_email_in db u Hwf Hu). simpl.
    rewrite Hh. destruct h as [|c h']; simpl; [reflexivity|].
    simpl in Hv. rewrite Hv. reflexivity.
Qed.

(** Witness of C3: [alice] with a wrong password. *)
Lemma login_uniform_failure_witness :
  login argon2_reject test_settings db0 "alice@school.edu" "wrong" t0
  = Raise (HTTPException 401 "Invalid email or password").
Proof.
  apply login_uniform_failure; [solve_db_wf|].
  right; right. exists alice, "$argon2id$v=19$m=65536,t=3,p=4$c2FsdA$aGFzaA".
  split; [simpl; auto|split; [reflexivity|split; reflexivity]].
Defined.

(** C8: [verify_password] raises [ValueError] on a stored hash that no
    configured scheme identifies, whatever the argon2 handler does; through
    [login] that exception is unhandled (HTTP 500), while a wrong password
    or an unknown email gives the 401. *)
Theorem verify_password_malformed_hash_raises
    (argon2_verify : string -> string -> result bool) :
  verify_password argon2_verify "pw" "plaintext-password"
  = Raise (ValueError "hash could not be identified")
  /\ login argon2_verify test_settings db_carol "carol@school.edu" "pw" t0
     = Raise (ValueError "hash could not be identified")
  /\ login argon2_verify test_settings db_carol "nobody@school.edu" "pw" t0
     = Raise (HTTPException 401 "Invalid email or password").
Proof.
  split; [reflexivity|split; reflexivity].
Qed.

(* ------------------------------------------------------------------ *)
(** ** Email lookups *)












(* ------------------------------------------------------------------ *)
(** ** Registration *)



(* ------------------------------------------------------------------ *)
(** ** Google token verification *)

(** C1 (code): [verify_google_token] reads the audience as
    [settings.google_client_id], a name [Settings] does not declare (it
    declares [google_client_ids]); for every verifier, settings and token it
    raises [AttributeError] before any audience is tried. For the token
    ["ios-token"], valid for the second configured client id only, the
    ordered loop over [google_client_ids] succeeds while the code raises. *)
Theorem verify_google_token_no_audience_loop
    (verify_oauth2_token : string -> attr_val -> result dict)
    (settings : Settings) (tok : string) :
  verify_google_token verify_oauth2_token settings tok
  = Raise (AttributeError "'Settings' object has no attribute 'google_client_id'")
  /\ verify_identity_spec google_ios_only test_settings "ios-token"
     = Ok {| gd_google_id := "5550001"; gd_email := "alice@school.edu";
             gd_name := "Alice G."; gd_avatar := None |}
  /\ verify_google_token google_ios_only test_settings "ios-token"
     = Raise (AttributeError "'Settings' object has no attribute 'google_client_id'").
Proof.
  split; [reflexivity|split; reflexivity].
Qed.

(* ------------------------------------------------------------------ *)
(** ** Current user *)

(** C2 (code): a token signed with the server key, unexpired, whose subject
    is ["abc"]: [decode_token] accepts it, and [get_current_user] then
    raises the [ValueError] of [int("abc")], which no handler turns into an
    HTTP response (HTTP 500), instead of an [HTTPException]. *)
Theorem get_current_user_unparseable_sub :
  decode_token test_settings token_sub_abc t0
  = Ok (Some [("sub", JStr "abc"); ("exp", JInt 1700086400)])
  /\ get_current_user test_settings db0 token_sub_abc t0
     = Raise (ValueError "invalid literal for int() with base 10: 'abc'").
Proof.
  split; vm_compute; reflexivity.
Qed.

(* ================================================================== *)
(** * Further properties of the code *)

(* ------------------------------------------------------------------ *)
(** ** [str(int)] and [int(str)] *)

Lemma digit_char_spec (d : nat) :
  (d < 10)%nat ->
  is_digit (digit_char d) = true /\ (nat_of_ascii (digit_char d) - 48 = d)%nat.
Proof.
  intros Hd. unfold is_digit, digit_char.
  rewrite nat_ascii_embedding by lia.
  split; [apply andb_true_iff; split; apply Nat.leb_le; lia|lia].
Qed.

Lemma nat_digits_spec (fuel n : nat) (acc : string) :
  (n < fuel)%nat ->
  exists ds,
    list_ascii_of_string (nat_digits fuel n acc) = app ds (list_ascii_of_string acc)
    /\ ds <> []
    /\ Forall (fun c => is_digit c = true) ds
    /\ fold_left (fun a c => (a * 10 + Z.of_nat (nat_of_ascii c - 48))%Z) ds 0%Z
       = Z.of_nat n.
Proof.
  revert n acc. induction fuel as [|f IH]; intros n acc Hn; [lia|].
  cbn [nat_digits].
  assert (Hm : (Nat.modulo n 10 < 10)%nat) by (apply Nat.mod_upper_bound; lia).
  destruct (digit_char_spec _ Hm) as [Hd Hv].
  set (c := digit_char (Nat.modulo n 10)) in *.
  destruct (Nat.ltb n 10) eqn:E.
  - apply Nat.ltb_lt in E. exists [c].
    split; [reflexivity|]. split; [discriminate|].
    split; [constructor; [exact Hd|constructor]|].
    cbn [fold_left]. rewrite Hv, Nat.mod_small by exact E. lia.
  - apply Nat.ltb_ge in E.
    assert (Hlt : (n / 10 < f)%nat).
    { assert (n / 10 < n)%nat by (apply Nat.div_lt; lia). lia. }
    destruct (IH (n / 10)%nat (String c acc) Hlt) as (ds & Hl & Hne & Hf & Hval).
    exists (app ds [c]). rewrite Hl. cbn [list_ascii_of_string].
    split; [now rewrite <- app_assoc|].
    split; [intros H; apply app_eq_nil in H as [_ H]; discriminate|].
    split; [apply Forall_app; split; [exact Hf|constructor; [exact Hd|constructor]]|].
    rewrite fold_left_app. cbn [fold_left]. rewrite Hval, Hv.
    pose proof (Nat.div_mod_eq n 10). lia.
Qed.

Lemma digit_not_space (c : ascii) : is_digit c = true -> is_space c = false.
Proof.
  unfold is_digit, is_space. intros H.
  apply andb_true_iff in H as [H1 H2]. apply Nat.leb_le in H1, H2.
  remember (nat_of_ascii c) as n eqn:En. clear En.
  do 58 (destruct n as [|n]; [first [reflexivity | lia]|]).
  reflexivity.
Qed.

Lemma drop_spaces_head (c : ascii) (r : list ascii) :
  is_space c = false -> drop_spaces (c :: r) = c :: r.
Proof. intros H. simpl. now rewrite H. Qed.

Lemma trim_digits_end (l ds : list ascii) :
  ds <> [] -> Forall (fun c => is_digit c = true) ds ->
  rev (drop_spaces (rev (app l ds))) = app l ds.
Proof.
  intros Hne Hf. rewrite rev_app_distr.
  destruct (rev ds) as [|c r] eqn:Er.
  - exfalso. apply Hne. rewrite <- (rev_involutive ds), Er. reflexivity.
  - assert (Hc : is_digit c = true).
    { rewrite Forall_forall in Hf. apply Hf. apply in_rev. rewrite Er. now left. }
    cbn [app]. rewrite drop_spaces_head by (now apply digit_not_space).
    change (c :: app r (rev l)) with (app (c :: r) (rev l)).
    rewrite <- Er, <- rev_app_distr, rev_involutive. reflexivity.
Qed.

Lemma parse_digits_app (ds r : list ascii) (acc : Z) (b : bool) :
  ds <> [] -> Forall (fun c => is_digit c = true) ds ->
  parse_digits (app ds r) acc b
  = parse_digits r (fold_left (fun a c => (a * 10 + Z.of_nat (nat_of_ascii c - 48))%Z) ds acc) true.
Proof.
  revert acc b. induction ds as [|c ds IH]; intros acc b Hne Hf; [congruence|].
  inversion Hf as [|? ? Hc Hf']; subst.
  cbn [app parse_digits fold_left]. rewrite Hc.
  destruct ds as [|c' ds'].
  - reflexivity.
  - apply IH; [discriminate|exact Hf'].
Qed.

Lemma parse_int_literal_py_str_int (z : Z) : parse_int_literal (py_str_int z) = Some z.
Proof.
  unfold py_str_int, parse_int_literal. destruct (z <? 0)%Z eqn:Hz.
  - apply Z.ltb_lt in Hz. set (n := Z.to_nat (- z)).
    destruct (nat_digits_spec (S n) n "" (Nat.lt_succ_diag_r n)) as (ds & Hl & Hne & Hf & Hv).
    change ("-" ++ nat_digits (S n) n "") with (String "-" (nat_digits (S n) n "")).
    cbn [list_ascii_of_string]. rewrite Hl. cbn [list_ascii_of_string]. rewrite app_nil_r.
    rewrite drop_spaces_head by reflexivity.
    change ("-"%char :: ds) with (app ["-"%char] ds).
    rewrite trim_digits_end by assumption. cbn [app].
    replace (Ascii.eqb "-" "-") with true by reflexivity.
    rewrite <- (app_nil_r ds) at 1. rewrite parse_digits_app by assumption.
    cbn [parse_digits option_map]. rewrite Hv. unfold n. rewrite Z2Nat.id by lia.
    f_equal. lia.
  - apply Z.ltb_ge in Hz. set (n := Z.to_nat z).
    destruct (nat_digits_spec (S n) n "" (Nat.lt_succ_diag_r n)) as (ds & Hl & Hne & Hf & Hv).
    rewrite Hl. cbn [list_ascii_of_string]. rewrite app_nil_r.
    assert (Hd : drop_spaces ds = ds).
    { destruct ds as [|c r]; [congruence|]. inversion Hf; subst.
      apply drop_spaces_head, digit_not_space; assumption. }
    rewrite Hd. pose proof (trim_digits_end [] ds Hne Hf) as Ht. cbn [app] in Ht.
    rewrite Ht. pose proof (parse_digits_app ds [] 0 false Hne Hf) as Hp.
    rewrite app_nil_r in Hp.
    destruct ds as [|c r]; [congruence|].
    assert (Hc : is_digit c = true) by (inversion Hf; assumption).
    replace (Ascii.eqb c "-") with false
      by (symmetry; apply Ascii.eqb_neq; intros ->; discriminate Hc).
    replace (Ascii.eqb c "+") with false
      by (symmetry; apply Ascii.eqb_neq; intros ->; discriminate Hc).
    rewrite Hp. cbn [parse_digits]. rewrite Hv. unfold n. now rewrite Z2Nat.id by lia.
Qed.

(* ------------------------------------------------------------------ *)
(** ** Lookups, issued tokens and the current user *)

Lemma find_by_id_in (db : DB) (u : User) :
  db_wf db -> In u (users db) -> find_by_id db (id u) = Ok (Some u).
Proof.
  intros Hwf Hu. unfold find_by_id.
  rewrite (filter_unique _ id _ u (wf_ids _ Hwf) Hu); [reflexivity| |].
  - apply Z.eqb_refl.
  - intros v _ Hp. now apply Z.eqb_eq in Hp.
Qed.



Lemma get_current_user_ok (settings : Settings) (db : DB) (tok : token)
    (now_us : Z) (u : User) :
  get_current_user settings db tok now_us = Ok u ->
  In u (users db)
  /\ exists cl s, decode_token settings tok now_us = Ok (Some cl)
                  /\ dict_get cl "sub" = Some s /\ py_int s = Ok (id u).
Proof.
  unfold get_current_user. intros H.
  destruct (decode_token settings tok now_us) as [[cl|]|e] eqn:Ed;
    cbn [bind] in H; try discriminate.
  destruct (dict_get cl "sub") as [s|] eqn:Es; [|discriminate].
  assert (Hs : s <> JNull) by (intros ->; discriminate).
  replace (match s with
           | JNull => Raise (HTTPException 401 "Invalid token payload")
           | _ => uid <- py_int s ;;
                  user <- find_by_id db uid ;;
                  match user with
                  | Some u0 => Ok u0
                  | None => Raise (HTTPException 401 "User not found")
                  end
           end)
    with (uid <- py_int s ;;
          user <- find_by_id db uid ;;
          match user with
          | Some u0 => Ok u0
          | None => Raise (HTTPException 401 "User not found")
          end) in H by (destruct s; congruence).
  destruct (py_int s) as [z|e] eqn:Ei; cbn [bind] in H; [|discriminate].
  destruct (find_by_id db z) as [[w|]|e] eqn:Ef; cbn [bind] in H; try discriminate.
  inversion H; subst w.
  apply scalar_one_or_none_some in Ef as [Hin Hid]. apply Z.eqb_eq in Hid.
  split; [exact Hin|]. exists cl, s. subst z. auto.
Qed.

(** X1: [int(str(z)) == z] for every integer [z], negative ones included:
    the subject [str(user.id)] of the tokens the routes issue is read back
    by [get_current_user] as the same id. *)
Theorem int_str_roundtrip (z : Z) : py_int (JStr (py_str_int z)) = Ok z.
Proof.
  unfold py_int. now rewrite parse_int_literal_py_str_int.
Qed.


(** X3: [get_current_user] only ever returns a stored user, the one whose
    id is the integer value of the subject of the accepted token. *)
Theorem get_current_user_stored (settings : Settings) (db : DB) (tok : token)
    (now_us : Z) (u : User) :
  get_current_user settings db tok now_us = Ok u ->
  In u (users db)
  /\ exists cl s, decode_token settings tok now_us = Ok (Some cl)
                  /\ dict_get cl "sub" = Some s /\ py_int s = Ok (id u).
Proof. apply get_current_user_ok. Qed.

(* ------------------------------------------------------------------ *)
(** ** Role checks *)

Lemma existsb_role_eqb (r : UserRole) (l : list UserRole) :
  existsb (role_eqb r) l = true <-> In r l.
Proof.
  rewrite existsb_exists. split.
  - intros [x [Hx He]]. destruct r, x; try discriminate; exact Hx.
  - intros Hr. exists r. split; [exact Hr|destruct r; reflexivity].
Qed.

(** X4: the dependency made by [require_roles] lets the user through exactly when its
    role is among the allowed ones (nobody with an empty list) and answers
    403 with the comma-joined role values otherwise;
    [require_roles] with the one role [ADMIN] admits the same users as
    [require_admin], with another detail on refusal. *)
Theorem require_roles_spec (allowed : list UserRole) (u : User) :
  (In (role u) allowed -> require_roles allowed u = Ok u)
  /\ (~ In (role u) allowed ->
      require_roles allowed u
      = Raise (HTTPException 403
                 ("Required role: " ++ join_comma (map role_value allowed))))
  /\ (role u = ADMIN -> require_roles [ADMIN] u = Ok u /\ require_admin u = Ok u)
  /\ (role u <> ADMIN ->
      require_roles [ADMIN] u = Raise (HTTPException 403 "Required role: ADMIN")
      /\ require_admin u = Raise (HTTPException 403 "Admin access required")).
Proof.
  unfold require_roles, require_admin.
  split; [|split; [|split]].
  - intros H. apply existsb_role_eqb in H. now rewrite H.
  - intros H. destruct (existsb (role_eqb (role u)) allowed) eqn:E; [|reflexivity].
    apply existsb_role_eqb in E. contradiction.
  - intros H. rewrite H. split; reflexivity.
  - intros H. destruct (role u); [congruence|split; reflexivity..].
Qed.

(** X5: behind [Depends(require_admin)], a request whose token
    [get_current_user] rejects gets that same error (a 401, never a 403),
    an authenticated non-admin gets the 403, and the dependency only ever
    yields a stored admin. *)
Theorem admin_dependency_spec (settings : Settings) (db : DB) (tok : token)
    (now_us : Z) :
  (forall e, get_current_user settings db tok now_us = Raise e ->
             admin_dependency settings db tok now_us = Raise e)
  /\ (forall u, get_current_user settings db tok now_us = Ok u -> role u <> ADMIN ->
                admin_dependency settings db tok now_us
                = Raise (HTTPException 403 "Admin access required"))
  /\ (forall u, admin_dependency settings db tok now_us = Ok u ->
                role u = ADMIN /\ In u (users db)).
Proof.
  unfold admin_dependency. split; [|split].
  - intros e H. now rewrite H.
  - intros u H Hr. rewrite H. cbn [bind]. unfold require_admin.
    destruct (role u); [congruence|reflexivity..].
  - intros u H.
    destruct (get_current_user settings db tok now_us) as [w|e] eqn:E;
      cbn [bind] in H; [|discriminate].
    unfold require_admin in H. destruct (role w) eqn:Er; try discriminate.
    inversion H; subst w. split; [exact Er|].
    exact (proj1 (get_current_user_ok _ _ _ _ _ E)).
Qed.

(* ------------------------------------------------------------------ *)
(** ** Registration *)

Lemma db_insert_wf_no_gid (db : DB) (w : User) :
  db_wf db -> id w = next_id db -> google_id w = None ->
  (forall v, In v (users db) -> email v <> email w) ->
  db_wf {| users := users db ++ [w]; next_id := (next_id db + 1)%Z |}.
Proof.
  intros [Hi He Hgi Hn] Hid Hg Hfresh. constructor; simpl.
  - rewrite map_app. apply NoDup_app; [exact Hi|repeat constructor; simpl; tauto|].
    intros x Hx [<-|[]]. apply in_map_iff in Hx as [v [Hv Hvx]].
    rewrite Forall_forall in Hn. specialize (Hn v Hvx). lia.
  - rewrite map_app. apply NoDup_app; [exact He|repeat constructor; simpl; tauto|].
    intros x Hx [<-|[]]. apply in_map_iff in Hx as [v [Hv Hvx]].
    exact (Hfresh v Hvx Hv).
  - unfold gids. rewrite flat_map_app. simpl. rewrite Hg. simpl.
    rewrite app_nil_r. exact Hgi.
  - apply Forall_app. split.
    + eapply Forall_impl; [|exact Hn]. simpl. intros v Hv. lia.
    + constructor; [simpl; lia|constructor].
Qed.

Lemma register_ok (hash_password : string -> string) (db : DB) (uc : UserCreate)
    (u : User) (db' : DB) :
  db_wf db -> register hash_password db uc = Ok (u, db') ->
  db_wf db' /\ users db' = app (users db) [u] /\ next_id db' = (next_id db + 1)%Z
  /\ id u = next_id db /\ email u = uc_email uc
  /\ hashed_password u = Some (hash_password (uc_password uc)).
Proof.
  intros Hwf H. unfold register in H.
  destruct (find_by_email db (uc_email uc)) as [[v|]|e] eqn:E;
    cbn [bind] in H; try discriminate.
  destruct (_ && _); [|discriminate].
  unfold db_insert in H. inversion H; subst u db'. clear H.
  pose proof (scalar_one_or_none_none _ _ E) as Hno.
  split; [|repeat split; reflexivity].
  apply db_insert_wf_no_gid; [exact Hwf|reflexivity|reflexivity|].
  intros v Hv. apply String.eqb_neq. exact (Hno v Hv).
Qed.

(** X6: a successful registration keeps the table constraints and appends
    exactly one row, numbered by the id sequence, holding the requested
    email and the hash of the requested password. *)
Theorem register_preserves_wf (hash_password : string -> string) (db : DB)
    (uc : UserCreate) (u : User) (db' : DB) :
  db_wf db -> register hash_password db uc = Ok (u, db') ->
  db_wf db' /\ users db' = app (users db) [u] /\ next_id db' = (next_id db + 1)%Z
  /\ id u = next_id db /\ email u = uc_email uc
  /\ hashed_password u = Some (hash_password (uc_password uc)).
Proof. apply register_ok. Qed.

(** X7: on a well-formed store, registering an email some user already
    has is refused with 400 ["Email already registered"] (whatever the rest
    of the request, the store is left as it was). *)
Theorem register_duplicate_email (hash_password : string -> string) (db : DB)
    (uc : UserCreate) (v : User) :
  db_wf db -> In v (users db) -> email v = uc_email uc ->
  register hash_password db uc = Raise (HTTPException 400 "Email already registered").
Proof.
  intros Hwf Hv He. unfold register. rewrite <- He, (find_by_email_in db v Hwf Hv).
  reflexivity.
Qed.


(* ------------------------------------------------------------------ *)
(** ** Google sign-in route and responses *)

(** X9: [POST /auth/google] never issues a token: for every verifier,
    configuration, store and ID token, the [AttributeError] raised in
    [verify_google_token] is not a [GoogleAuthError], so the route's
    handler lets it through (HTTP 500 rather than the 401 of a rejected
    token). *)
Theorem google_auth_unhandled_error
    (verify_oauth2_token : string -> attr_val -> result dict)
    (settings : Settings) (db : DB) (id_token : string) (now_us : Z) :
  google_auth verify_oauth2_token settings db id_token now_us
  = Raise (AttributeError "'Settings' object has no attribute 'google_client_id'").
Proof. reflexivity. Qed.

(** X11: a user's response never depends on the password hash or the
    Google id of the row: two users differing only there give the same
    response. *)
Theorem from_user_ignores_secrets (u : User) (h g : option string) :
  from_user {| id := id u; email := email u; name := name u; hashed_password := h;
               role := role u; avatar := avatar u; department := department u;
               google_id := g |}
  = from_user u.
Proof. reflexivity. Qed.

(* ------------------------------------------------------------------ *)
(** ** User routes *)

Lemma gids_map_same (f : User -> User) (l : list User) :
  (forall v, In v l -> google_id (f v) = google_id v) -> gids (map f l) = gids l.
Proof.
  induction l as [|a l IH]; intros H; [reflexivity|].
  unfold gids in *. simpl. rewrite (H a (or_introl eq_refl)).
  f_equal. apply IH. intros v Hv. apply H. now right.
Qed.

(** Writing back a row whose key columns are unchanged keeps the table
    constraints and every other row. *)
Lemma db_update_same_keys (db : DB) (u u' : User) :
  db_wf db -> In u (users db) -> id u' = id u -> email u' = email u ->
  google_id u' = google_id u ->
  db_wf (db_update db u') /\ In u' (users (db_update db u'))
  /\ length (users (db_update db u')) = length (users db)
  /\ (forall v, In v (users db) -> id v <> id u -> In v (users (db_update db u'))).
Proof.
  intros Hwf Hu Hid Hem Hg.
  assert (Hsame : forall v, In v (users db) -> id v = id u' -> v = u).
  { intros v Hv E. apply (NoDup_map_inj id (users db)); auto using wf_ids. congruence. }
  assert (Hkey : forall (B : Type) (f : User -> B), f u' = f u ->
                 map f (map (upd u') (users db)) = map f (users db)).
  { intros B f Hf. rewrite map_map. apply map_ext_in. intros v Hv. unfold upd.
    destruct (Z.eqb (id v) (id u')) eqn:E; [|reflexivity].
    apply Z.eqb_eq in E. rewrite (Hsame v Hv E). exact Hf. }
  unfold db_update; simpl. fold (upd u').
  split; [|split; [|split]].
  - destruct Hwf as [Hi He Hgi Hn]. constructor; simpl.
    + now rewrite (Hkey _ id Hid).
    + now rewrite (Hkey _ email Hem).
    + rewrite gids_map_same; [exact Hgi|]. intros v Hv. unfold upd.
      destruct (Z.eqb (id v) (id u')) eqn:E; [|reflexivity].
      apply Z.eqb_eq in E. rewrite (Hsame v Hv E). exact Hg.
    + rewrite Forall_map. eapply Forall_impl; [|exact Hn].
      intros v Hv. unfold upd. destruct (Z.eqb (id v) (id u')) eqn:E; [|exact Hv].
      apply Z.eqb_eq in E. simpl. rewrite <- E. exact Hv.
  - apply in_map_iff. exists u. split; [|exact Hu].
    unfold upd. now rewrite Hid, Z.eqb_refl.
  - apply length_map.
  - intros v Hv Hne. apply in_map_iff. exists v. split; [|exact Hv].
    unfold upd. replace (Z.eqb (id v) (id u')) with false; [reflexivity|].
    symmetry. apply Z.eqb_neq. congruence.
Qed.

(** X12: on a well-formed store, [PUT /users/profile] keeps the table
    constraints, keeps every other user's row, and rewrites the caller's
    row without touching its id, email, role, password hash or Google id;
    the response is the rewritten row. *)
Theorem update_profile_spec (db : DB) (updates : UserUpdate) (cu : User)
    (r : UserResponse) (db' : DB) :
  db_wf db -> In cu (users db) -> update_profile db updates cu = Ok (r, db') ->
  db_wf db' /\ length (users db') = length (users db)
  /\ (forall v, In v (users db) -> id v <> id cu -> In v (users db'))
  /\ exists u', In u' (users db') /\ r = from_user u' /\ id u' = id cu
                /\ email u' = email cu /\ role u' = role cu
                /\ hashed_password u' = hashed_password cu
                /\ google_id u' = google_id cu.
Proof.
  intros Hwf Hcu H. unfold update_profile in H. inversion H; subst r db'. clear H.
  match goal with |- context [db_update db ?w] => set (u' := w) end.
  destruct (db_update_same_keys db cu u' Hwf Hcu eq_refl eq_refl eq_refl)
    as (Hwf' & Hin & Hlen & Hother).
  split; [exact Hwf'|split; [exact Hlen|split; [exact Hother|]]].
  exists u'. repeat split; assumption || reflexivity.
Qed.

(** X13: on a well-formed store, a profile update with neither field
    given changes nothing and answers the caller's current profile. *)
Theorem update_profile_empty (db : DB) (cu : User) :
  db_wf db -> In cu (users db) ->
  update_profile db {| uu_name := None; uu_department := None |} cu
  = Ok (from_user cu, db).
Proof.
  intros Hwf Hcu. destruct cu as [i e n h r a d g]. unfold update_profile. simpl.
  f_equal. f_equal. unfold db_update. destruct db as [us nx]. simpl in *. f_equal.
  rewrite <- (map_id us) at 2. apply map_ext_in. intros v Hv.
  destruct (Z.eqb (id v) i) eqn:E; [|reflexivity].
  apply Z.eqb_eq in E. symmetry.
  exact (NoDup_map_inj id us v _ (wf_ids _ Hwf) Hv Hcu E).
Qed.

Lemma in_firstn_skipn {A} (x : A) (n m : nat) (l : list A) :
  In x (firstn n (skipn m l)) -> In x l.
Proof.
  intros H. assert (H' : In x (skipn m l)).
  { rewrite <- (firstn_skipn n (skipn m l)). apply in_or_app. now left. }
  rewrite <- (firstn_skipn m l). apply in_or_app. now right.
Qed.

(** X14: [GET /users] answers 403 to every non-admin caller, whatever the
    query (the role check runs before the parameters are validated), and
    422 to an admin whose [skip] or [limit] is out of range; a successful
    answer holds at most [limit] (so at most 100) responses, each the
    response of a stored user, of the requested department when a
    non-empty one is given. *)
Theorem list_users_spec (db : DB) (dep : option string) (skip limit : Z)
    (cu : User) :
  (role cu <> ADMIN ->
   list_users db dep skip limit cu = Raise (HTTPException 403 "Admin access required"))
  /\ (role cu = ADMIN -> (skip < 0 \/ limit < 1 \/ 100 < limit)%Z ->
      exists d, list_users db dep skip limit cu = Raise (HTTPException 422 d))
  /\ (forall rs, list_users db dep skip limit cu = Ok rs ->
      (length rs <= Z.to_nat limit)%nat /\ (limit <= 100)%Z
      /\ forall r, In r rs -> exists u, In u (users db) /\ r = from_user u
                                        /\ (str_truthy dep = true -> department u = dep)).
Proof.
  unfold list_users, require_admin. split; [|split].
  - intros H. destruct (role cu); [congruence|reflexivity..].
  - intros H Hr. rewrite H. cbn [bind].
    replace ((skip <? 0)%Z || (limit <? 1)%Z || (100 <? limit)%Z) with true
      by (symmetry; destruct Hr as [Hr|[Hr|Hr]];
          apply Z.ltb_lt in Hr; rewrite Hr; rewrite ?orb_true_r; reflexivity).
    eauto.
  - intros rs H. destruct (role cu); cbn [bind] in H; try discriminate.
    destruct ((skip <? 0)%Z || (limit <? 1)%Z || (100 <? limit)%Z) eqn:Ev;
      [discriminate|].
    apply orb_false_iff in Ev as [Ev Ev3]. apply orb_false_iff in Ev as [Ev1 Ev2].
    apply Z.ltb_ge in Ev3. inversion H; subst rs. clear H.
    split; [rewrite length_map, length_firstn; lia|split; [exact Ev3|]].
    intros r Hr. apply in_map_iff in Hr as [u [<- Hu]].
    apply in_firstn_skipn in Hu. exists u.
    destruct dep as [d|].
    + destruct (str_truthy (Some d)) eqn:Et.
      * apply filter_In in Hu as [Hu Hd]. apply opt_str_eqb_true in Hd. auto.
      * split; [exact Hu|split; [reflexivity|discriminate]].
    + split; [exact Hu|split; [reflexivity|discriminate]].
Qed.

Lemma find_by_id_raises (db : DB) (i : Z) (e : exn) :
  find_by_id db i = Raise e -> e = MultipleResultsFound.
Proof.
  unfold find_by_id, scalar_one_or_none.
  destruct (filter _ (users db)) as [|a [|b r]]; intros H; inversion H; reflexivity.
Qed.

(** X15: [GET /users/{user_id}] answers 404 exactly when no stored user has
    the id, otherwise the response of the user with that id; on a
    well-formed store every stored user can be fetched by its id. *)
Theorem get_user_spec (db : DB) (uid : Z) :
  (get_user db uid = Raise (HTTPException 404 "User not found")
   <-> forall v, In v (users db) -> id v <> uid)
  /\ (forall r, get_user db uid = Ok r ->
      exists u, In u (users db) /\ id u = uid /\ r = from_user u)
  /\ (db_wf db -> forall u, In u (users db) -> get_user db (id u) = Ok (from_user u)).
Proof.
  unfold get_user. split; [split|split].
  - intros H v Hv E.
    destruct (find_by_id db uid) as [[w|]|e] eqn:F; cbn [bind] in H; try discriminate.
    + assert (Hf := scalar_one_or_none_none _ _ F v Hv). cbv beta in Hf.
      rewrite E, Z.eqb_refl in Hf. discriminate.
    + apply find_by_id_raises in F. inversion H; subst. discriminate.
  - intros H. unfold find_by_id. rewrite filter_none; [reflexivity|].
    intros v Hv. apply Z.eqb_neq. exact (H v Hv).
  - intros r H.
    destruct (find_by_id db uid) as [[w|]|e] eqn:F; cbn [bind] in H; try discriminate.
    inversion H; subst r. apply scalar_one_or_none_some in F as [Hw Hid].
    apply Z.eqb_eq in Hid. eauto.
  - intros Hwf u Hu. rewrite (find_by_id_in db u Hwf Hu). reflexivity.
Qed.

(* ------------------------------------------------------------------ *)
(** ** Polls *)

Lemma scalar_of_some {A} (p : A -> bool) (l : list A) (x : A) :
  scalar_one_or_none_of (filter p l) = Ok (Some x) -> filter p l = [x].
Proof.
  unfold scalar_one_or_none_of.
  destruct (filter p l) as [|a [|b r]]; intros H; inversion H; reflexivity.
Qed.

Lemma scalar_of_none {A} (p : A -> bool) (l : list A) :
  scalar_one_or_none_of (filter p l) = Ok None -> filter p l = [].
Proof.
  unfold scalar_one_or_none_of.
  destruct (filter p l) as [|a [|b r]]; intros H; inversion H; reflexivity.
Qed.

Lemma filter_nil_false {A} (p : A -> bool) (l : list A) :
  filter p l = [] -> forall x, In x l -> p x = false.
Proof.
  intros H x Hx. destruct (p x) eqn:E; [|reflexivity].
  assert (In x (filter p l)) by (apply filter_In; auto). rewrite H in H0. destruct H0.
Qed.

Lemma filter_false_nil {A} (p : A -> bool) (l : list A) :
  (forall x, In x l -> p x = false) -> filter p l = [].
Proof.
  induction l as [|a l IH]; intros H; [reflexivity|].
  simpl. rewrite (H a (or_introl eq_refl)). apply IH. intros x Hx. apply H. now right.
Qed.

Lemma vote_on_poll_ok (expiry_passed : Z -> result bool) (pdb : PollDB)
    (pid oid : Z) (u : User) (pdb' : PollDB) :
  vote_on_poll expiry_passed pdb pid oid u = Ok pdb' ->
  exists p,
    filter (fun q => Z.eqb (poll_id q) pid) (polls pdb) = [p]
    /\ is_active p = true
    /\ match expires_at p with Some e => expiry_passed e | None => Ok false end = Ok false
    /\ In oid (map fst (poll_options p))
    /\ filter (fun v => Z.eqb (vote_poll_id v) pid && Z.eqb (vote_user_id v) (id u))
         (poll_votes pdb) = []
    /\ pdb' = {| polls := polls pdb;
                 poll_votes := poll_votes pdb
                   ++ [{| vote_id := next_vote_id pdb; vote_poll_id := pid;
                          vote_user_id := id u; vote_option_id := oid |}];
                 activities := activities pdb; next_poll_id := next_poll_id pdb;
                 next_vote_id := (next_vote_id pdb + 1)%Z |}.
Proof.
  unfold vote_on_poll, find_poll. intros H.
  destruct (scalar_one_or_none_of (filter _ (polls pdb))) as [[p|]|e] eqn:F;
    cbn [bind] in H; try discriminate.
  destruct (is_active p) eqn:A; cbn [negb] in H; [|discriminate].
  destruct (match expires_at p with Some e => expiry_passed e | None => Ok false end)
    as [[]|e] eqn:X; cbn [bind] in H; try discriminate.
  destruct (scalar_one_or_none_of (filter _ (poll_votes pdb))) as [[w|]|e] eqn:S;
    cbn [bind] in H; try discriminate.
  destruct (existsb (Z.eqb oid) (map fst (poll_options p))) eqn:O; [|discriminate].
  inversion H; subst pdb'. clear H. exists p.
  apply existsb_exists in O as [o [Ho Eo]]. apply Z.eqb_eq in Eo. subst o.
  repeat split; auto using scalar_of_some, scalar_of_none.
Qed.

(** X16: a successful vote keeps the table constraints of polls and votes
    (in particular at most one vote per user and poll, which the check
    before the insert guarantees) and keeps every vote valid: for a stored
    poll and one of its options. *)
Theorem vote_on_poll_preserves_wf (expiry_passed : Z -> result bool) (pdb : PollDB)
    (pid oid : Z) (u : User) (pdb' : PollDB) :
  poll_db_wf pdb -> votes_valid pdb ->
  vote_on_poll expiry_passed pdb pid oid u = Ok pdb' ->
  poll_db_wf pdb' /\ votes_valid pdb'.
Proof.
  intros [Hp Hv Ho Hnp Hnv] Hval H.
  destruct (vote_on_poll_ok _ _ _ _ _ _ H) as (p & Hf & _ & _ & Hopt & Hnone & ->).
  assert (Hpin : In p (polls pdb) /\ poll_id p = pid).
  { assert (Hin : In p (filter (fun q => Z.eqb (poll_id q) pid) (polls pdb)))
      by (rewrite Hf; now left).
    apply filter_In in Hin as [Hin E]. apply Z.eqb_eq in E. auto. }
  split.
  - constructor; simpl.
    + exact Hp.
    + rewrite map_app. apply NoDup_app; [exact Hv|repeat constructor; simpl; tauto|].
      intros x Hx [<-|[]]. apply in_map_iff in Hx as [w [Hw Hwx]].
      rewrite Forall_forall in Hnv. specialize (Hnv w Hwx). simpl in Hw. lia.
    + rewrite map_app. apply NoDup_app; [exact Ho|repeat constructor; simpl; tauto|].
      intros x Hx [<-|[]]. apply in_map_iff in Hx as [w [Hw Hwx]].
      assert (Hfw := filter_nil_false _ _ Hnone w Hwx). simpl in Hfw.
      inversion Hw as [[E1 E2]]. rewrite E1, E2, !Z.eqb_refl in Hfw. discriminate.
    + exact Hnp.
    + apply Forall_app. split.
      * eapply Forall_impl; [|exact Hnv]. simpl. intros w Hw. lia.
      * constructor; [simpl; lia|constructor].
  - unfold votes_valid in *. simpl. apply Forall_app. split; [exact Hval|].
    constructor; [|constructor]. exists p. simpl. destruct Hpin. auto.
Qed.

(** X17: after a user's vote on a poll has been recorded, a second vote by
    the same user on the same poll, for any option and with the expiry
    check answering as before, is refused with 400 ["You have already
    voted on this poll"]. *)
Theorem vote_twice_refused (expiry_passed : Z -> result bool) (pdb : PollDB)
    (pid oid oid' : Z) (u : User) (pdb' : PollDB) :
  vote_on_poll expiry_passed pdb pid oid u = Ok pdb' ->
  vote_on_poll expiry_passed pdb' pid oid' u
  = Raise (HTTPException 400 "You have already voted on this poll").
Proof.
  intros H.
  destruct (vote_on_poll_ok _ _ _ _ _ _ H) as (p & Hf & Ha & Hx & _ & Hnone & ->).
  unfold vote_on_poll, find_poll. cbn [polls poll_votes]. rewrite Hf.
  cbn [scalar_one_or_none_of bind]. rewrite Ha. cbn [negb]. rewrite Hx. cbn [bind].
  rewrite filter_app, Hnone. cbn [filter vote_poll_id vote_user_id].
  rewrite !Z.eqb_refl. reflexivity.
Qed.

Lemma close_poll_ok (pdb : PollDB) (pid : Z) (u : User) (pdb' : PollDB) :
  close_poll pdb pid u = Ok pdb' ->
  role u = ADMIN
  /\ exists p,
       filter (fun q => Z.eqb (poll_id q) pid) (polls pdb) = [p]
       /\ is_active p = true
       /\ pdb' = log_activity
                   {| polls := map (fun q => if Z.eqb (poll_id q) (poll_id p)
                                             then {| poll_id := poll_id p;
                                                     poll_title := poll_title p;
                                                     poll_options := poll_options p;
                                                     is_active := false;
                                                     expires_at := expires_at p;
                                                     created_by := created_by p |}
                                             else q) (polls pdb);
                      poll_votes := poll_votes pdb; activities := activities pdb;
                      next_poll_id := next_poll_id pdb; next_vote_id := next_vote_id pdb |}
                   ("Poll Closed: " ++ poll_title p) (name u) "close" (Some "poll") (Some pid).
Proof.
  unfold close_poll, require_admin, find_poll. intros H.
  destruct (role u) eqn:R; cbn [bind] in H; try discriminate.
  split; [reflexivity|].
  destruct (scalar_one_or_none_of (filter _ (polls pdb))) as [[p|]|e] eqn:F;
    cbn [bind] in H; try discriminate.
  destruct (is_active p) eqn:A; cbn [negb] in H; [|discriminate].
  inversion H; subst pdb'. exists p. split; [now apply scalar_of_some|auto].
Qed.

Lemma filter_map_poll_id (f : Poll -> Poll) (l : list Poll) (pid : Z) :
  (forall q, poll_id (f q) = poll_id q) ->
  filter (fun q => Z.eqb (poll_id q) pid) (map f l)
  = map f (filter (fun q => Z.eqb (poll_id q) pid) l).
Proof.
  intros Hf. induction l as [|a l IH]; [reflexivity|].
  simpl. rewrite Hf. destruct (Z.eqb (poll_id a) pid); simpl; now rewrite IH.
Qed.

(** X18: once a poll has been closed, every vote on it is refused with
    400 ["Poll is closed"] and closing it again with 400 ["Poll is already
    closed"]; closing keeps the table constraints and the validity of the
    votes, and logs exactly one activity naming the poll. *)
Theorem close_poll_spec (expiry_passed : Z -> result bool) (pdb : PollDB)
    (pid : Z) (u : User) (pdb' : PollDB) :
  close_poll pdb pid u = Ok pdb' ->
  (forall oid voter, vote_on_poll expiry_passed pdb' pid oid voter
                     = Raise (HTTPException 400 "Poll is closed"))
  /\ close_poll pdb' pid u = Raise (HTTPException 400 "Poll is already closed")
  /\ (poll_db_wf pdb -> poll_db_wf pdb')
  /\ (poll_db_wf pdb -> votes_valid pdb -> votes_valid pdb')
  /\ exists title, activities pdb'
                   = app (activities pdb) [mkActivity title (name u) "close" (Some "poll") (Some pid)].
Proof.
  intros H. destruct (close_poll_ok _ _ _ _ H) as (R & p & Hf & Ha & ->). clear H.
  set (f := fun q => if Z.eqb (poll_id q) (poll_id p)
                     then {| poll_id := poll_id p; poll_title := poll_title p;
                             poll_options := poll_options p; is_active := false;
                             expires_at := expires_at p; created_by := created_by p |}
                     else q).
  assert (Hfid : forall q, poll_id (f q) = poll_id q).
  { intros q. unfold f. destruct (Z.eqb (poll_id q) (poll_id p)) eqn:E; [|reflexivity].
    apply Z.eqb_eq in E. simpl. congruence. }
  assert (Hfopt : forall q, poll_options (f q) = poll_options q \/ poll_id q = poll_id p).
  { intros q. unfold f. destruct (Z.eqb (poll_id q) (poll_id p)) eqn:E; [|now left].
    apply Z.eqb_eq in E. now right. }
  assert (Hfind : filter (fun q => Z.eqb (poll_id q) pid) (polls (log_activity
            {| polls := map f (polls pdb); poll_votes := poll_votes pdb;
               activities := activities pdb; next_poll_id := next_poll_id pdb;
               next_vote_id := next_vote_id pdb |}
            ("Poll Closed: " ++ poll_title p) (name u) "close" (Some "poll") (Some pid)))
          = [f p]).
  { cbn [log_activity polls]. rewrite filter_map_poll_id by exact Hfid.
    rewrite Hf. reflexivity. }
  assert (Hfp : is_active (f p) = false) by (unfold f; now rewrite Z.eqb_refl).
  split; [|split; [|split; [|split]]].
  - intros oid voter. unfold vote_on_poll, find_poll. rewrite Hfind.
    cbn [scalar_one_or_none_of bind]. now rewrite Hfp.
  - unfold close_poll, require_admin. rewrite R. cbn [bind]. unfold find_poll.
    rewrite Hfind. cbn [scalar_one_or_none_of bind]. now rewrite Hfp.
  - intros [Hp Hv Ho Hnp Hnv]. constructor; simpl; auto.
    + rewrite map_map. erewrite map_ext; [exact Hp|]. intros q. apply Hfid.
    + rewrite Forall_map. eapply Forall_impl; [|exact Hnp]. intros q Hq.
      now rewrite Hfid.
  - unfold votes_valid. simpl. intros Hwf Hval. eapply Forall_impl; [|exact Hval].
    intros v [q (Hq & Hqid & Hqo)]. exists (f q).
    split; [now apply in_map|split; [now rewrite Hfid|]].
    unfold f. destruct (Z.eqb (poll_id q) (poll_id p)) eqn:E; [|exact Hqo].
    apply Z.eqb_eq in E. simpl.
    assert (Hpin : In p (filter (fun q => Z.eqb (poll_id q) pid) (polls pdb)))
      by (rewrite Hf; now left).
    apply filter_In in Hpin as [Hpin _].
    rewrite (NoDup_map_inj poll_id _ q p (pwf_poll_ids _ Hwf) Hq Hpin E) in Hqo.
    exact Hqo.
  - eexists. reflexivity.
Qed.

Lemma list_sum_zero {A} (f : A -> nat) (l : list A) :
  (forall x, In x l -> f x = 0%nat) -> list_sum (map f l) = 0%nat.
Proof.
  induction l as [|a l IH]; intros H; [reflexivity|].
  simpl. rewrite (H a (or_introl eq_refl)), IH; [reflexivity|].
  intros x Hx. apply H. now right.
Qed.

Lemma list_sum_map_add {A} (f g : A -> nat) (l : list A) :
  list_sum (map (fun x => f x + g x)%nat l) = (list_sum (map f l) + list_sum (map g l))%nat.
Proof. induction l as [|a l IH]; simpl; [reflexivity|]. rewrite IH. lia. Qed.

Lemma sum_indicator (x : Z) (os : list Z) :
  NoDup os -> In x os ->
  list_sum (map (fun o => if Z.eqb x o then 1 else 0)%nat os) = 1%nat.
Proof.
  induction os as [|a os IH]; intros Hnd Hx; [destruct Hx|].
  inversion Hnd as [|? ? Hnin Hnd']; subst. simpl.
  destruct (Z.eqb x a) eqn:E.
  - apply Z.eqb_eq in E. subst a. rewrite list_sum_zero; [reflexivity|].
    intros o Ho. destruct (Z.eqb x o) eqn:E'; [|reflexivity].
    apply Z.eqb_eq in E'. subst o. contradiction.
  - destruct Hx as [Hx|Hx]; [apply Z.eqb_neq in E; congruence|].
    now rewrite IH.
Qed.

Lemma count_votes_sum (vs : list PollVote) (pid : Z) (os : list Z) :
  NoDup os ->
  (forall v, In v vs -> vote_poll_id v = pid -> In (vote_option_id v) os) ->
  list_sum (map (count_votes vs pid) os) = total_votes vs pid.
Proof.
  intros Hnd. induction vs as [|v vs IH]; intros Hall.
  - apply list_sum_zero. intros x _. reflexivity.
  - rewrite (map_ext (count_votes (v :: vs) pid)
               (fun o => (if Z.eqb (vote_poll_id v) pid && Z.eqb (vote_option_id v) o
                          then 1 else 0) + count_votes vs pid o)%nat)
      by (intros o; unfold count_votes; simpl;
          destruct (Z.eqb (vote_poll_id v) pid && Z.eqb (vote_option_id v) o); reflexivity).
    rewrite list_sum_map_add, IH by (intros w Hw; apply Hall; now right).
    unfold total_votes at 2. simpl.
    destruct (Z.eqb (vote_poll_id v) pid) eqn:E; cbn [andb].
    + apply Z.eqb_eq in E. rewrite sum_indicator; [reflexivity|exact Hnd|].
      apply Hall; [now left|exact E].
    + rewrite list_sum_zero; [reflexivity|]. reflexivity.
Qed.

(** X19: in the response of [build_poll_response], the vote counts shown
    for the options add up to [totalVotes] whenever the poll's option ids
    are distinct, on a store whose votes are all valid. ([create_poll]
    does not check that the ids are distinct.) *)
Theorem poll_counts_sum (pdb : PollDB) (p : Poll) :
  poll_db_wf pdb -> votes_valid pdb -> In p (polls pdb) ->
  NoDup (map fst (poll_options p)) ->
  list_sum (map snd (poll_option_counts pdb p)) = total_votes (poll_votes pdb) (poll_id p).
Proof.
  intros Hwf Hval Hp Hnd. unfold poll_option_counts. rewrite map_map. cbn [snd].
  rewrite <- (map_map fst (count_votes (poll_votes pdb) (poll_id p))).
  apply count_votes_sum; [exact Hnd|].
  intros v Hv E. unfold votes_valid in Hval. rewrite Forall_forall in Hval.
  destruct (Hval v Hv) as [q (Hq & Hqid & Hqo)].
  rewrite (NoDup_map_inj poll_id _ q p (pwf_poll_ids _ Hwf) Hq Hp (eq_trans Hqid E)) in Hqo.
  exact Hqo.
Qed.

(** X20: only an admin can create a poll (403 otherwise); the new poll is
    stored and active, the constraints and the validity of the votes are
    kept, and when it has no expiry every user can vote on it for any of
    its options. *)
Theorem create_poll_spec (expiry_passed : Z -> result bool) (pdb : PollDB)
    (data : PollCreate) (u : User) :
  (role u <> ADMIN ->
   create_poll pdb data u = Raise (HTTPException 403 "Admin access required"))
  /\ (forall p pdb', create_poll pdb data u = Ok (p, pdb') ->
      poll_db_wf pdb -> votes_valid pdb ->
      poll_db_wf pdb' /\ votes_valid pdb' /\ In p (polls pdb') /\ is_active p = true
      /\ (pc_expires_at data = None ->
          forall oid voter, In oid (map fst (pc_options data)) ->
          exists pdb'', vote_on_poll expiry_passed pdb' (poll_id p) oid voter = Ok pdb'')).
Proof.
  unfold create_poll, require_admin. split.
  - intros H. destruct (role u); [congruence|reflexivity..].
  - intros p pdb' H Hwf Hval. destruct (role u); cbn [bind] in H; try discriminate.
    inversion H; subst p pdb'. clear H.
    destruct Hwf as [Hp Hv Ho Hnp Hnv].
    assert (Hold : forall q, In q (polls pdb) -> Z.eqb (poll_id q) (next_poll_id pdb) = false).
    { intros q Hq. apply Z.eqb_neq. rewrite Forall_forall in Hnp. specialize (Hnp q Hq). lia. }
    split; [|split; [|split; [|split]]].
    + constructor; simpl; auto.
      * rewrite map_app. apply NoDup_app; [exact Hp|repeat constructor; simpl; tauto|].
        intros x Hx [<-|[]]. apply in_map_iff in Hx as [q [Hq Hqx]].
        specialize (Hold q Hqx). rewrite Hq, Z.eqb_refl in Hold. discriminate.
      * apply Forall_app. split.
        -- eapply Forall_impl; [|exact Hnp]. simpl. intros q Hq. lia.
        -- constructor; [simpl; lia|constructor].
    + unfold votes_valid in *. simpl. eapply Forall_impl; [|exact Hval].
      intros v [q (Hq & Hqid & Hqo)]. exists q. split; [apply in_or_app; now left|auto].
    + simpl. apply in_or_app. right. now left.
    + reflexivity.
    + intros He oid voter Hoid. unfold vote_on_poll, find_poll.
      cbn [log_activity polls poll_votes poll_id].
      rewrite filter_app, (filter_false_nil _ (polls pdb)) by exact Hold.
      cbn [app filter poll_id]. rewrite Z.eqb_refl.
      cbn [scalar_one_or_none_of bind is_active negb expires_at]. rewrite He. cbn [bind].
      rewrite (filter_false_nil _ (poll_votes pdb)).
      * cbn [scalar_one_or_none_of bind poll_options].
        replace (existsb (Z.eqb oid) (map fst (pc_options data))) with true.
        -- eexists. reflexivity.
        -- symmetry. apply existsb_exists. exists oid. split; [exact Hoid|apply Z.eqb_refl].
      * intros v Hvin. unfold votes_valid in Hval. rewrite Forall_forall in Hval.
        destruct (Hval v Hvin) as [q (Hq & Hqid & _)].
        specialize (Hold q Hq). rewrite Hqid in Hold. now rewrite Hold.
Qed.

(* ------------------------------------------------------------------ *)
(** ** Notifications *)

Lemma length_filter_map_same {A} (p : A -> bool) (f : A -> A) (l : list A) :
  (forall x, In x l -> p (f x) = p x) ->
  length (filter p (map f l)) = length (filter p l).
Proof.
  induction l as [|a l IH]; intros H; [reflexivity|].
  simpl. rewrite (H a (or_introl eq_refl)).
  destruct (p a); simpl; rewrite IH; auto; intros x Hx; apply H; now right.
Qed.

Lemma mark_as_read_ok (ndb : NotifDB) (nid : Z) (cu : User) (ndb' : NotifDB) :
  mark_as_read ndb nid cu = Ok ndb' ->
  exists n, In n (notifications ndb) /\ notif_id n = nid /\ notif_user_id n = id cu
    /\ ndb' = {| notifications := map (fun m => if Z.eqb (notif_id m) (notif_id n)
                                                then set_read n else m)
                                    (notifications ndb);
                 next_notif_id := next_notif_id ndb |}.
Proof.
  unfold mark_as_read. intros H.
  destruct (scalar_one_or_none_of (filter _ (notifications ndb))) as [[n|]|e] eqn:S;
    cbn [bind] in H; try discriminate.
  inversion H; subst ndb'. apply scalar_of_some in S.
  assert (Hn : In n (filter (fun n => Z.eqb (notif_id n) nid
                                       && Z.eqb (notif_user_id n) (id cu))
                      (notifications ndb))) by (rewrite S; now left).
  apply filter_In in Hn as [Hn Hp]. apply andb_true_iff in Hp as [H1 H2].
  apply Z.eqb_eq in H1, H2. exists n. auto.
Qed.

(** X21: [PATCH /notifications/{id}/read] answers 404 when the
    notification with that id is not the caller's (or does not exist); on
    a table with unique ids it leaves every other user's notification in
    place and every other user's unread count unchanged. *)
Theorem mark_as_read_spec (ndb : NotifDB) (nid : Z) (cu : User) :
  ((forall n, In n (notifications ndb) -> notif_id n = nid -> notif_user_id n <> id cu) ->
   mark_as_read ndb nid cu = Raise (HTTPException 404 "Notification not found"))
  /\ (NoDup (map notif_id (notifications ndb)) ->
      forall ndb', mark_as_read ndb nid cu = Ok ndb' ->
      (forall n, In n (notifications ndb) -> notif_user_id n <> id cu ->
                 In n (notifications ndb'))
      /\ (forall u, id u <> id cu -> get_unread_count ndb' u = get_unread_count ndb u)).
Proof.
  split.
  - intros Hno. unfold mark_as_read. rewrite filter_false_nil; [reflexivity|].
    intros x Hx. destruct (Z.eqb (notif_id x) nid) eqn:E; [|reflexivity].
    apply Z.eqb_eq in E. cbn [andb]. apply Z.eqb_neq. exact (Hno x Hx E).
  - intros Hnd ndb' H. destruct (mark_as_read_ok _ _ _ _ H) as (n & Hn & Hid & Hu & ->).
    assert (Hsame : forall m, In m (notifications ndb) -> notif_id m = notif_id n -> m = n)
      by (intros m Hm E; exact (NoDup_map_inj notif_id _ m n Hnd Hm Hn E)).
    split.
    + intros m Hm Hne. simpl. apply in_map_iff. exists m. split; [|exact Hm].
      destruct (Z.eqb (notif_id m) (notif_id n)) eqn:E; [|reflexivity].
      apply Z.eqb_eq in E. rewrite (Hsame m Hm E) in Hne. contradiction.
    + intros u Hne. unfold get_unread_count. simpl. f_equal.
      apply length_filter_map_same. intros m Hm.
      destruct (Z.eqb (notif_id m) (notif_id n)) eqn:E; [|reflexivity].
      apply Z.eqb_eq in E. rewrite (Hsame m Hm E). simpl. rewrite Hu.
      replace (Z.eqb (id cu) (id u)) with false by (symmetry; apply Z.eqb_neq; congruence).
      reflexivity.
Qed.

(** X22: after [PATCH /notifications/read-all] the caller has no unread
    notification, and every other user's unread count is unchanged. *)
Theorem mark_all_as_read_spec (ndb : NotifDB) (cu : User) :
  get_unread_count (mark_all_as_read ndb cu) cu = 0%Z
  /\ (forall u, id u <> id cu ->
      get_unread_count (mark_all_as_read ndb cu) u = get_unread_count ndb u)
  /\ length (notifications (mark_all_as_read ndb cu)) = length (notifications ndb).
Proof.
  unfold get_unread_count, mark_all_as_read. simpl. split; [|split].
  - rewrite filter_false_nil; [reflexivity|]. intros x Hx.
    apply in_map_iff in Hx as [m [<- _]].
    destruct (Z.eqb (notif_user_id m) (id cu) && negb (is_read m)) eqn:E;
      [simpl; apply andb_false_r|exact E].
  - intros u Hne. f_equal. apply length_filter_map_same. intros m _.
    destruct (Z.eqb (notif_user_id m) (id cu) && negb (is_read m)) eqn:E; [|reflexivity].
    apply andb_true_iff in E as [E _]. apply Z.eqb_eq in E. simpl. rewrite E.
    replace (Z.eqb (id cu) (id u)) with false by (symmetry; apply Z.eqb_neq; congruence).
    reflexivity.
  - apply length_map.
Qed.

Lemma new_notifications_unread (i : Z) (uids : list Z) (t m ty : string) (x : Z) :
  length (filter (fun n => Z.eqb (notif_user_id n) x && negb (is_read n))
            (new_notifications i uids t m ty))
  = count_occ Z.eq_dec uids x.
Proof.
  revert i. induction uids as [|y uids IH]; intros i; [reflexivity|].
  simpl. destruct (Z.eq_dec y x) as [E|E].
  - subst y. rewrite Z.eqb_refl. simpl. now rewrite IH.
  - replace (Z.eqb y x) with false by (symmetry; now apply Z.eqb_neq). simpl. apply IH.
Qed.

(** X23: [POST /notifications/broadcast] is refused with 403 to a
    non-admin; otherwise its [count] is the number of users, and on a
    well-formed store each stored user has exactly one more unread
    notification while a user id not in the table gets none. *)
Theorem broadcast_spec (db : DB) (ndb : NotifDB) (t m ty : string) (cu : User) :
  (role cu <> ADMIN ->
   broadcast_notification db ndb t m ty cu
   = Raise (HTTPException 403 "Admin access required"))
  /\ (forall c ndb', broadcast_notification db ndb t m ty cu = Ok (c, ndb') ->
      c = Z.of_nat (length (users db))
      /\ (db_wf db -> forall u, In u (users db) ->
          get_unread_count ndb' u = (get_unread_count ndb u + 1)%Z)
      /\ (forall u, ~ In (id u) (map id (users db)) ->
          get_unread_count ndb' u = get_unread_count ndb u)).
Proof.
  unfold broadcast_notification, require_admin. split.
  - intros H. destruct (role cu); [congruence|reflexivity..].
  - intros c ndb' H. destruct (role cu); cbn [bind] in H; try discriminate.
    inversion H; subst c ndb'. clear H.
    split; [now rewrite length_map|split].
    + intros Hwf u Hu. unfold get_unread_count. simpl.
      rewrite filter_app, length_app, new_notifications_unread.
      rewrite (proj1 (NoDup_count_occ' Z.eq_dec _) (wf_ids _ Hwf) (id u))
        by (now apply in_map). lia.
    + intros u Hu. unfold get_unread_count. simpl.
      rewrite filter_app, length_app, new_notifications_unread.
      rewrite (count_occ_not_In Z.eq_dec _ (id u)) in Hu. rewrite Hu. f_equal. lia.
Qed.

(** X24: [POST /notifications/send] by an admin to an id no stored user
    has answers 404 ["Target user not found"]; a successful send is for a
    stored user and adds exactly one notification, unread, to that user
    only. *)
Theorem send_notification_spec (db : DB) (ndb : NotifDB) (data : NotificationCreate)
    (cu : User) :
  (role cu <> ADMIN ->
   send_notification db ndb data cu = Raise (HTTPException 403 "Admin access required"))
  /\ (role cu = ADMIN -> (forall v, In v (users db) -> id v <> nc_user_id data) ->
      send_notification db ndb data cu = Raise (HTTPException 404 "Target user not found"))
  /\ (forall n ndb', send_notification db ndb data cu = Ok (n, ndb') ->
      (exists v, In v (users db) /\ id v = nc_user_id data)
      /\ is_read n = false /\ notif_user_id n = nc_user_id data
      /\ notifications ndb' = app (notifications ndb) [n]
      /\ forall u, get_unread_count ndb' u
                   = (get_unread_count ndb u
                      + if Z.eqb (id u) (nc_user_id data) then 1 else 0)%Z).
Proof.
  unfold send_notification, require_admin. split; [|split].
  - intros H. destruct (role cu); [congruence|reflexivity..].
  - intros H Hno. rewrite H. cbn [bind]. unfold find_by_id.
    rewrite filter_none; [reflexivity|]. intros v Hv. apply Z.eqb_neq. exact (Hno v Hv).
  - intros n ndb' H. destruct (role cu); cbn [bind] in H; try discriminate.
    destruct (find_by_id db (nc_user_id data)) as [[w|]|e] eqn:F;
      cbn [bind] in H; try discriminate.
    inversion H; subst n ndb'. clear H.
    apply scalar_one_or_none_some in F as [Hw Hid]. apply Z.eqb_eq in Hid.
    split; [eauto|split; [reflexivity|split; [reflexivity|split; [reflexivity|]]]].
    intros u. unfold get_unread_count. simpl.
    rewrite filter_app, length_app. simpl.
    destruct (Z.eqb (id u) (nc_user_id data)) eqn:E.
    + apply Z.eqb_eq in E. rewrite E, Z.eqb_refl. simpl. lia.
    + replace (Z.eqb (nc_user_id data) (id u)) with false
        by (symmetry; apply Z.eqb_neq; apply Z.eqb_neq in E; congruence).
      simpl. lia.
Qed.

(* ------------------------------------------------------------------ *)
(** ** Witnesses of the further properties *)


(** Witness of X3. *)
Lemma get_current_user_stored_witness :
  In alice (users db0)
  /\ exists cl s,
       decode_token test_settings
         (create_access_token test_settings [("sub", JStr "1")] None t0) t0
       = Ok (Some cl)
       /\ dict_get cl "sub" = Some s /\ py_int s = Ok (id alice).
Proof.
  apply (get_current_user_stored test_settings db0
           (create_access_token test_settings [("sub", JStr "1")] None t0) t0).
  vm_compute. reflexivity.
Defined.

(** Witness of X4: a student refused by a dependency for admins and
    teachers. *)
Lemma require_roles_spec_witness :
  require_roles [ADMIN; TEACHER] alice
  = Raise (HTTPException 403 "Required role: ADMIN, TEACHER").
Proof.
  apply (proj1 (proj2 (require_roles_spec [ADMIN; TEACHER] alice))).
  simpl. intuition discriminate.
Defined.

(** Witness of X5: [alice], a student, on an admin route. *)
Lemma admin_dependency_spec_witness :
  admin_dependency test_settings db0
    (create_access_token test_settings [("sub", JStr "1")] None t0) t0
  = Raise (HTTPException 403 "Admin access required").
Proof.
  apply (proj1 (proj2 (admin_dependency_spec test_settings db0
           (create_access_token test_settings [("sub", JStr "1")] None t0) t0)) alice).
  - vm_compute. reflexivity.
  - discriminate.
Defined.

(** Witness of X6. *)
Lemma register_preserves_wf_witness :
  exists u db',
    register (fun p => "$argon2id$" ++ p) db0
      (parse_user_create "Mallory" "mallory@School.EDU" None "pw12345" None) = Ok (u, db')
    /\ db_wf db' /\ email u = "mallory@school.edu".
Proof.
  do 2 eexists. split; [reflexivity|].
  destruct (register_preserves_wf (fun p => "$argon2id$" ++ p) db0
              (parse_user_create "Mallory" "mallory@School.EDU" None "pw12345" None)
              _ _ ltac:(solve_db_wf) eq_refl) as (Hwf & _ & _ & _ & He & _).
  split; [exact Hwf|exact He].
Defined.

(** Witness of X7: registering [alice]'s email again. *)
Lemma register_duplicate_email_witness :
  register (fun p => "$argon2id$" ++ p) db0
    (parse_user_create "Alice 2" "alice@school.edu" None "other-pw" None)
  = Raise (HTTPException 400 "Email already registered").
Proof.
  apply (register_duplicate_email _ db0 _ alice).
  - solve_db_wf.
  - simpl. auto.
  - reflexivity.
Defined.


(** Witness of X12: [alice] renames the account. *)
Lemma update_profile_spec_witness :
  exists r db',
    update_profile db0 {| uu_name := Some "Alicia"; uu_department := None |} alice
    = Ok (r, db')
    /\ db_wf db' /\ In bob (users db').
Proof.
  do 2 eexists. split; [reflexivity|].
  destruct (update_profile_spec db0 {| uu_name := Some "Alicia"; uu_department := None |}
              alice _ _ ltac:(solve_db_wf) ltac:(simpl; auto) eq_refl)
    as (Hwf & _ & Hother & _).
  split; [exact Hwf|]. apply Hother; [simpl; auto|discriminate].
Defined.

(** Witness of X13. *)
Lemma update_profile_empty_witness :
  update_profile db0 {| uu_name := None; uu_department := None |} bob
  = Ok (from_user bob, db0).
Proof.
  apply update_profile_empty; [solve_db_wf|simpl; auto].
Defined.

(** Witness of X14: [bob], a teacher, listing the users with an invalid
    [limit]. *)
Lemma list_users_spec_witness :
  list_users db0 (Some "Science") 0 500 bob
  = Raise (HTTPException 403 "Admin access required").
Proof.
  apply (proj1 (list_users_spec db0 (Some "Science") 0 500 bob)). discriminate.
Defined.

(** Witness of X15. *)
Lemma get_user_spec_witness :
  get_user db0 7 = Raise (HTTPException 404 "User not found").
Proof.
  apply (proj1 (get_user_spec db0 7)). simpl.
  intros v [<-|[<-|[]]]; discriminate.
Defined.

(** Witness of X16: [alice] votes for option 2 of [poll1]. *)
Lemma vote_on_poll_preserves_wf_witness :
  exists pdb', vote_on_poll never_expired pdb0 1 2 alice = Ok pdb'
               /\ poll_db_wf pdb' /\ votes_valid pdb'.
Proof.
  eexists. split; [reflexivity|].
  apply (vote_on_poll_preserves_wf never_expired pdb0 1 2 alice).
  - solve_poll_db_wf.
  - constructor.
  - reflexivity.
Defined.

(** Witness of X17. *)
Lemma vote_twice_refused_witness :
  exists pdb', vote_on_poll never_expired pdb0 1 2 alice = Ok pdb'
               /\ vote_on_poll never_expired pdb' 1 3 alice
                  = Raise (HTTPException 400 "You have already voted on this poll").
Proof.
  eexists. split; [reflexivity|].
  apply (vote_twice_refused never_expired pdb0 1 2 3 alice). reflexivity.
Defined.

(** Witness of X18: [dana] closes [poll1]; [alice] then tries to vote. *)
Lemma close_poll_spec_witness :
  exists pdb', close_poll pdb0 1 dana = Ok pdb'
               /\ vote_on_poll never_expired pdb' 1 2 alice
                  = Raise (HTTPException 400 "Poll is closed").
Proof.
  eexists. split; [reflexivity|].
  apply (proj1 (close_poll_spec never_expired pdb0 1 dana _ eq_refl)).
Defined.

(** Witness of X19. *)
Lemma poll_counts_sum_witness :
  list_sum (map snd (poll_option_counts pdb_votes poll1))
  = total_votes (poll_votes pdb_votes) (poll_id poll1).
Proof.
  apply poll_counts_sum.
  - solve_poll_db_wf.
  - unfold votes_valid. simpl.
    repeat constructor; exists poll1; (split; [now left|split; [reflexivity|simpl; tauto]]).
  - simpl. auto.
  - simpl. repeat constructor; simpl; intuition discriminate.
Defined.

(** Witness of X20: [dana] creates a poll, [bob] votes on it. *)
Lemma create_poll_spec_witness :
  exists p pdb', create_poll pdb0 new_poll dana = Ok (p, pdb')
    /\ exists pdb'', vote_on_poll never_expired pdb' (poll_id p) 1 bob = Ok pdb''.
Proof.
  do 2 eexists. split; [reflexivity|].
  refine (proj2 (proj2 (proj2 (proj2
            (proj2 (create_poll_spec never_expired pdb0 new_poll dana) _ _ eq_refl _ _))))
            eq_refl 1%Z bob _).
  - solve_poll_db_wf.
  - constructor.
  - simpl. auto.
Defined.

(** Witness of X21: [alice] marking [bob]'s notification as read. *)
Lemma mark_as_read_spec_witness :
  mark_as_read ndb0 2 alice = Raise (HTTPException 404 "Notification not found").
Proof.
  apply (proj1 (mark_as_read_spec ndb0 2 alice)). simpl.
  intros n [<-|[<-|[]]]; simpl; intros E; discriminate.
Defined.

(** Witness of X22. *)
Lemma mark_all_as_read_spec_witness :
  get_unread_count (mark_all_as_read ndb0 alice) bob = get_unread_count ndb0 bob.
Proof.
  apply (proj1 (proj2 (mark_all_as_read_spec ndb0 alice))). discriminate.
Defined.

(** Witness of X23: [dana] broadcasts to [db0]. *)
Lemma broadcast_spec_witness :
  exists c ndb', broadcast_notification db0 ndb0 "Staff meeting" "Tomorrow 9am" "warning" dana
                 = Ok (c, ndb')
    /\ get_unread_count ndb' alice = (get_unread_count ndb0 alice + 1)%Z.
Proof.
  do 2 eexists. split; [reflexivity|].
  apply (proj1 (proj2 (proj2 (broadcast_spec db0 ndb0 "Staff meeting" "Tomorrow 9am"
                                "warning" dana) _ _ eq_refl))).
  - solve_db_wf.
  - simpl. auto.
Defined.

(** Witness of X24: a notification for a user id nobody has. *)
Lemma send_notification_spec_witness :
  send_notification db0 ndb0
    {| nc_user_id := 9; nc_title := "Hi"; nc_message := "Hello"; nc_type := "info" |} dana
  = Raise (HTTPException 404 "Target user not found").
Proof.
  apply (proj1 (proj2 (send_notification_spec db0 ndb0
           {| nc_user_id := 9; nc_title := "Hi"; nc_message := "Hello"; nc_type := "info" |}
           dana))).
  - reflexivity.
  - simpl. intros v [<-|[<-|[]]]; discriminate.
Defined.
